(** * Social-link enrichment scripts: a shallow embedding and its properties

    The development follows the Python scripts of the repository.  Each
    source file that is modelled gets a module of its own, named after the
    file, holding the translation of the functions that the properties
    below talk about.  The theorems come after all the definitions.

    Conventions of the embedding.
    - A Python [str] is a [string]; characters are the 256 [ascii] codes,
      so [lower] and the regular-expression classes act on ASCII.
    - A spreadsheet cell, a value that is [None] or [NaN] in Python, is an
      [option string]: [None] stands for both [None] and [NaN] (the two
      are not told apart by [pd.isna]).
    - A [dict] is a [gmap] with string keys.
    - The network is an explicit argument: the replies that the remote
      services give are data of the model, and every statement quantifies
      over them.
    - [time.sleep] is recorded where a property speaks about it (the
      rate-limit pause) and dropped elsewhere; logging is dropped. *)

From Stdlib Require Import Ascii String NArith ZArith Lia.
From stdpp Require Import base option list gmap strings fin_maps sorting.

(** * Python strings *)

Module PyStr.

Definition code (c : ascii) : N := N_of_ascii c.

Definition in_range (lo hi : N) (c : ascii) : bool :=
  ((lo <=? code c) && (code c <=? hi))%N.

Definition is_upper (c : ascii) : bool := in_range 65 90 c.
Definition is_lower (c : ascii) : bool := in_range 97 122 c.
Definition is_digit (c : ascii) : bool := in_range 48 57 c.

(** [\s] of the [re] module on the ASCII range: tab to carriage return,
    the four separators 28..31, and the space. *)
Definition is_space (c : ascii) : bool :=
  in_range 9 13 c || in_range 28 31 c || (code c =? 32)%N.

(** The class [[a-z0-9_]]. *)
Definition is_handle_char (c : ascii) : bool :=
  is_lower c || is_digit c || (code c =? 95)%N.

(** The class [[a-zA-Z0-9_.]]. *)
Definition is_tiktok_char (c : ascii) : bool :=
  is_lower c || is_upper c || is_digit c || (code c =? 95)%N || (code c =? 46)%N.

Definition lower_ascii (c : ascii) : ascii :=
  if is_upper c then ascii_of_N (code c + 32) else c.

(** [s.lower()] *)
Fixpoint lower (s : string) : string :=
  match s with
  | EmptyString => EmptyString
  | String c s' => String (lower_ascii c) (lower s')
  end.

(** [re.sub('[^...]', '', s)] for a character class: keep the class. *)
Fixpoint keep (cls : ascii -> bool) (s : string) : string :=
  match s with
  | EmptyString => EmptyString
  | String c s' => if cls c then String c (keep cls s') else keep cls s'
  end.

(** The longest prefix made of characters of a class, and what follows. *)
Fixpoint take_while (cls : ascii -> bool) (s : string) : string :=
  match s with
  | EmptyString => EmptyString
  | String c s' => if cls c then String c (take_while cls s') else EmptyString
  end.

Fixpoint drop_while (cls : ascii -> bool) (s : string) : string :=
  match s with
  | EmptyString => EmptyString
  | String c s' => if cls c then drop_while cls s' else s
  end.

(** [s.startswith(p)], returning the rest of [s] after [p]. *)
Fixpoint strip_prefix (p s : string) : option string :=
  match p with
  | EmptyString => Some s
  | String a p' =>
      match s with
      | EmptyString => None
      | String b s' => if Ascii.eqb a b then strip_prefix p' s' else None
      end
  end.

Definition startswith (p s : string) : bool :=
  match strip_prefix p s with Some _ => true | None => false end.

(** [sub in s] *)
Fixpoint contains (sub s : string) : bool :=
  startswith sub s ||
  match s with
  | EmptyString => false
  | String _ s' => contains sub s'
  end.

(** Removing the trailing characters of a class. *)
Fixpoint rstrip_class (cls : ascii -> bool) (s : string) : string :=
  match s with
  | EmptyString => EmptyString
  | String x s' =>
      match rstrip_class cls s' with
      | EmptyString => if cls x then EmptyString else String x EmptyString
      | r => String x r
      end
  end.

(** [s.rstrip(c)] for a one-character argument. *)
Definition rstrip (c : ascii) (s : string) : string :=
  rstrip_class (fun x => Ascii.eqb x c) s.

(** [s.strip()] *)
Definition strip (s : string) : string :=
  rstrip_class is_space (drop_while is_space s).

(** [s.split(c)] for a one-character separator: never the empty list. *)
Fixpoint split (c : ascii) (s : string) : list string :=
  match s with
  | EmptyString => [EmptyString]
  | String x s' =>
      if Ascii.eqb x c then EmptyString :: split c s'
      else match split c s' with
           | h :: t => String x h :: t
           | [] => [String x EmptyString]
           end
  end.

(** [s.replace(old, new)] for a non-empty [old]: leftmost occurrences,
    not overlapping.  [skip] counts the characters of a matched [old]
    that are still to be passed over. *)
Fixpoint replace_from (old new : string) (skip : nat) (s : string) : string :=
  match s with
  | EmptyString => EmptyString
  | String x s' =>
      match skip with
      | S k => replace_from old new k s'
      | O =>
          if startswith old s
          then new +:+ replace_from old new (Nat.pred (String.length old)) s'
          else String x (replace_from old new O s')
      end
  end.

Definition replace (old new s : string) : string := replace_from old new O s.

(** [sep.join(l)] *)
Fixpoint join (sep : string) (l : list string) : string :=
  match l with
  | [] => EmptyString
  | [x] => x
  | x :: rest => x +:+ sep +:+ join sep rest
  end.

(** [re.search(lit + '([cls]+)', s)] and its group 1, for a literal [lit]
    that is not empty: the leftmost position where [lit] is followed by
    at least one character of the class, and the longest run there. *)
Fixpoint re_search_group (lit : string) (cls : ascii -> bool) (s : string)
  : option string :=
  match s with
  | EmptyString => None
  | String _ s' =>
      match strip_prefix lit s with
      | Some rest =>
          match take_while cls rest with
          | EmptyString => re_search_group lit cls s'
          | run => Some run
          end
      | None => re_search_group lit cls s'
      end
  end.

(** [re.sub('^(a1|a2|...)\s+', '', s)]: the alternatives are tried in
    order at position 0; one of them followed by at least one white-space
    character is removed together with all the white space after it. *)
Fixpoint re_sub_head (alts : list string) (s : string) : string :=
  match alts with
  | [] => s
  | a :: alts' =>
      match strip_prefix a s with
      | Some (String c rest) =>
          if is_space c then drop_while is_space rest else re_sub_head alts' s
      | _ => re_sub_head alts' s
      end
  end.

(** The class [[a-zA-Z0-9_]], which is [\w] on the ASCII range, and the
    classes built on it. *)
Definition is_word_char (c : ascii) : bool :=
  is_lower c || is_upper c || is_digit c || (code c =? 95)%N.

Definition is_path_char (c : ascii) : bool :=
  is_word_char c || (code c =? 45)%N.

Definition is_channel_char (c : ascii) : bool :=
  is_word_char c || (code c =? 45)%N || (code c =? 46)%N.

(** The double quote, and the literal that opens a link to a path. *)
Definition dquote : ascii := ascii_of_N 34.

Definition href_open : string :=
  String "h" (String "r" (String "e" (String "f" (String "="
    (String dquote (String "/" EmptyString)))))).

(** [re.findall(href_open + '([cls]+)' + dquote, s)]: the runs of the
    class that stand between the opening literal and a double quote,
    from left to right, without overlap.  [skip] counts the characters
    of a match that are still to be passed over. *)
Fixpoint findall_href (cls : ascii -> bool) (skip : nat) (s : string)
  : list string :=
  match s with
  | EmptyString => []
  | String _ s' =>
      match skip with
      | S k => findall_href cls k s'
      | O =>
          match strip_prefix href_open s with
          | Some rest =>
              match take_while cls rest,
                    strip_prefix (String dquote EmptyString)
                                 (drop_while cls rest) with
              | String c run, Some _ =>
                  String c run
                  :: findall_href cls
                       (String.length href_open + String.length (String c run))
                       s'
              | _, _ => findall_href cls O s'
              end
          | None => findall_href cls O s'
          end
      end
  end.

(** Truth value of a string: [if s:] *)
Definition truthy (s : string) : bool :=
  match s with EmptyString => false | _ => true end.

End PyStr.

(** * Outcomes of calls that may raise *)

Inductive outcome (A : Type) : Type :=
| Return (a : A)
| Raise (msg : string).
Arguments Return {A} a.
Arguments Raise {A} msg.

Global Instance outcome_eq_dec {A : Type} `{EqDecision A} : EqDecision (outcome A).
Proof. solve_decision. Defined.

(** A cell of a table, or a dictionary value that may be [None]. *)
Abbreviation cell := (option string).

(** * Guessing a handle from a name, and templating it into a URL

    [create_rappers_final.py]: the known prefixes are lil, young, big and
    the; a name that cleans to nothing gives no handle. *)

Module create_rappers_final.
Import PyStr.

Definition clean_artist_name_for_handle (artist_name : cell) : cell :=
  match artist_name with
  | None => None
  | Some name =>
      if negb (truthy name) then None
      else
        let clean := lower name in
        let clean := re_sub_head ["lil"; "young"; "big"; "the"] clean in
        let clean := keep is_handle_char clean in
        if truthy clean then Some clean else None
  end.

(** [if handle:] on a value that is [None] or a string. *)
Definition given (h : cell) : option string :=
  match h with
  | Some s => if truthy s then Some s else None
  | None => None
  end.

Definition construct_instagram_url (artist_name : cell) : cell * cell :=
  match given (clean_artist_name_for_handle artist_name) with
  | Some handle => (Some ("https://www.instagram.com/" +:+ handle), Some handle)
  | None => (None, None)
  end.

Definition construct_tiktok_url (artist_name : cell) (instagram_handle : cell)
  : cell * cell :=
  match given instagram_handle with
  | Some ig => (Some ("https://www.tiktok.com/@" +:+ ig), Some ig)
  | None =>
      match given (clean_artist_name_for_handle artist_name) with
      | Some handle => (Some ("https://www.tiktok.com/@" +:+ handle), Some handle)
      | None => (None, None)
      end
  end.

Definition construct_youtube_url (artist_name : cell) (instagram_handle : cell)
  : cell :=
  match given instagram_handle with
  | Some ig => Some ("https://www.youtube.com/@" +:+ ig)
  | None =>
      match given (clean_artist_name_for_handle artist_name) with
      | Some handle => Some ("https://www.youtube.com/@" +:+ handle)
      | None => None
      end
  end.

Definition construct_twitter_url (artist_name : cell) (instagram_handle : cell)
  : cell * cell :=
  match given instagram_handle with
  | Some ig => (Some ("https://twitter.com/" +:+ ig), Some ig)
  | None =>
      match given (clean_artist_name_for_handle artist_name) with
      | Some handle => (Some ("https://twitter.com/" +:+ handle), Some handle)
      | None => (None, None)
      end
  end.

Definition construct_soundcloud_url (artist_name : cell) : cell * cell :=
  match given (clean_artist_name_for_handle artist_name) with
  | Some handle => (Some ("https://soundcloud.com/" +:+ handle), Some handle)
  | None => (None, None)
  end.

Definition construct_facebook_url (artist_name : cell) : cell :=
  match given (clean_artist_name_for_handle artist_name) with
  | Some handle => Some ("https://www.facebook.com/" +:+ handle)
  | None => None
  end.

(** [extract_youtube_channel_id]: the identifier of a channel URL, or
    the handle of a handle URL with its at sign. *)
Definition extract_youtube_channel_id (youtube_url : cell) : cell :=
  match youtube_url with
  | None => None
  | Some url =>
      if negb (truthy url) then None
      else
        let url_str := strip url in
        match re_search_group "/channel/" is_path_char url_str with
        | Some channel => Some channel
        | None =>
            match re_search_group "/@" is_channel_char url_str with
            | Some handle => Some ("@" +:+ handle)
            | None => None
            end
        end
  end.

End create_rappers_final.

(** [enrich_dj_producers_social.py]: the known prefix is dj; the cleaned
    name is returned as it is, the templaters test it. *)

Module enrich_dj_producers_social.
Import PyStr.

Definition clean_artist_name_for_handle (artist_name : cell) : cell :=
  match artist_name with
  | None => None
  | Some name =>
      let clean := lower name in
      let clean := re_sub_head ["dj"] clean in
      let clean := keep is_handle_char clean in
      Some clean
  end.

Definition given := create_rappers_final.given.

Definition construct_instagram_url (artist_name : cell) : cell * cell :=
  match given (clean_artist_name_for_handle artist_name) with
  | Some handle => (Some ("https://www.instagram.com/" +:+ handle), Some handle)
  | None => (None, None)
  end.

Definition construct_tiktok_url (artist_name : cell) (instagram_handle : cell)
  : cell * cell :=
  match given instagram_handle with
  | Some ig => (Some ("https://www.tiktok.com/@" +:+ ig), Some ig)
  | None =>
      match given (clean_artist_name_for_handle artist_name) with
      | Some handle => (Some ("https://www.tiktok.com/@" +:+ handle), Some handle)
      | None => (None, None)
      end
  end.

End enrich_dj_producers_social.

(** [enrich_musicbrainz.py]: the handle of a profile URL.  The [platform]
    argument is not used by the source.  A [url] that is not a string
    ([None], [NaN]) is the [None] of the model: [None] is caught by the
    first test and [NaN] by the handler, both return [None]. *)

Module enrich_musicbrainz.
Import PyStr.

Definition extract_handle (url : cell) (platform : string) : cell :=
  match url with
  | None => None
  | Some url =>
      if negb (truthy url) then None
      else
        let clean := hd EmptyString (split "?" (rstrip "/" url)) in
        let parts := split "/" clean in
        let handle := last parts in
        match handle with
        | Some (String "@" h) => Some h
        | _ => handle
        end
  end.

(** A URL relation of an artist: [rel.get("type")] and
    [rel.get("url", {}).get("resource", "")]. *)
Record relation : Type := {
  rel_type : option string;
  resource : string
}.

(** One turn of the loop of [get_artist_urls]. *)
Definition add_url (urls : gmap string string) (rel : relation)
  : gmap string string :=
  if bool_decide (rel_type rel = Some "url") then urls
  else
    let url := resource rel in
    let type := lower (default EmptyString (rel_type rel)) in
    if contains "instagram" (lower url) then <["instagram" := url]> urls
    else if contains "twitter.com" (lower url) || contains "x.com" (lower url)
    then <["twitter" := url]> urls
    else if contains "facebook.com" (lower url) then <["facebook" := url]> urls
    else if contains "tiktok.com" (lower url) then <["tiktok" := url]> urls
    else if String.eqb type "official homepage" then <["website" := url]> urls
    else urls.

(** [get_artist_urls] on the relations that the service lists; a failed
    request gives the empty dictionary. *)
Definition get_artist_urls (relations : option (list relation))
  : gmap string string :=
  match relations with
  | Some rels => foldl add_url ∅ rels
  | None => ∅
  end.

Definition get (row : gmap string cell) (col : string) : cell :=
  default None (row !! col).

Definition isna (v : cell) : bool :=
  match v with None => true | Some _ => false end.

(** [urls.get(key)] as a condition. *)
Definition found (urls : gmap string string) (key : string) : option string :=
  match urls !! key with
  | Some u => if truthy u then Some u else None
  | None => None
  end.

(** The steps of [run] that fill a URL column with its handle column,
    or a URL column alone; the flag is [updated]. *)
Definition fill_pair (urls : gmap string string)
    (key url_col handle_col : string) (acc : gmap string cell * bool)
  : gmap string cell * bool :=
  match found urls key with
  | Some u =>
      if isna (get acc.1 url_col)
      then (<[handle_col := extract_handle (Some u) key]>
              (<[url_col := Some u]> acc.1), true)
      else acc
  | None => acc
  end.

Definition fill_one (urls : gmap string string) (key url_col : string)
    (acc : gmap string cell * bool) : gmap string cell * bool :=
  match found urls key with
  | Some u =>
      if isna (get acc.1 url_col)
      then (<[url_col := Some u]> acc.1, true)
      else acc
  | None => acc
  end.

(** The part of [run] from "Fill in missing values" to the update of
    [lookup_status]. *)
Definition update_row (urls : gmap string string) (row : gmap string cell)
  : gmap string cell :=
  let acc := fill_pair urls "instagram" "instagram_url" "instagram_handle"
               (row, false) in
  let acc := fill_pair urls "twitter" "twitter_url" "twitter_handle" acc in
  let acc := fill_one urls "facebook" "facebook_url" acc in
  let acc := fill_pair urls "tiktok" "tiktok_url" "tiktok_handle" acc in
  let acc := fill_one urls "website" "website_url" acc in
  if acc.2 then
    let existing := default EmptyString (get acc.1 "lookup_status") in
    if negb (contains "musicbrainz" (lower existing))
    then <["lookup_status" :=
             Some (if truthy existing then existing +:+ "+musicbrainz"
                   else "musicbrainz")]> acc.1
    else acc.1
  else acc.1.

Definition social_cols : list string :=
  ["instagram_url"; "twitter_url"; "facebook_url"; "website_url"; "tiktok_url"].

(** [has_social] *)
Definition has_social (row : gmap string cell) : bool :=
  existsb (fun col => negb (isna (get row col))) social_cols.

(** The body of the loop of [run] for a row at or after [resume_from]:
    [urls] is what [get_artist_urls] gave for the artist found, [None]
    when no artist or no identifier was found. *)
Definition run_row (urls : option (gmap string string))
    (row : gmap string cell) : gmap string cell :=
  if has_social row then row
  else
    match urls with
    | Some urls => if bool_decide (urls = ∅) then row else update_row urls row
    | None => row
    end.

End enrich_musicbrainz.

(** [fill_all_social_links.py]: extraction by regular expression, for the
    three platforms it knows, and its own two templaters. *)

Module fill_all_social_links.
Import PyStr.

Definition not_slash (c : ascii) : bool := negb (Ascii.eqb c "/").

Definition extract_handle_from_url (url : cell) (platform : string) : cell :=
  match url with
  | None => None
  | Some url =>
      if negb (truthy url) then None
      else if String.eqb platform "instagram"
      then re_search_group "instagram.com/" not_slash url
      else if String.eqb platform "twitter"
      then re_search_group "twitter.com/" not_slash url
      else if String.eqb platform "tiktok"
      then re_search_group "@" is_tiktok_char url
      else None
  end.

Definition clean_name (artist_name : string) : string :=
  replace "." "" (replace "-" "" (replace " " "" (lower artist_name))).

Definition construct_instagram_url (artist_name : string) : string :=
  "https://www.instagram.com/" +:+ clean_name artist_name +:+ "/".

Definition construct_twitter_url (artist_name : string) : string :=
  "https://twitter.com/" +:+ clean_name artist_name.

Definition get (row : gmap string cell) (col : string) : cell :=
  default None (row !! col).

Definition isna (v : cell) : bool :=
  match v with None => true | Some _ => false end.

(** The three steps of [main] for one platform: the tests read the row
    as it was when the loop reached it, the writes go to the table. *)
Definition fill_platform (platform url_col handle_col : string)
    (from_handle : string -> string) (from_artist : string)
    (row df : gmap string cell) : gmap string cell :=
  let df :=
    if isna (get row handle_col) && negb (isna (get row url_col)) then
      match extract_handle_from_url (get row url_col) platform with
      | Some handle => if truthy handle then <[handle_col := Some handle]> df
                       else df
      | None => df
      end
    else df in
  let df :=
    match get row url_col, get row handle_col with
    | None, Some handle => <[url_col := Some (from_handle handle)]> df
    | _, _ => df
    end in
  match get row url_col, get row handle_col with
  | None, None =>
      let url := from_artist in
      let handle := extract_handle_from_url (Some url) platform in
      <[handle_col := handle]> (<[url_col := Some url]> df)
  | _, _ => df
  end.

(** The body of the loop of [main] for the row of [artist]. *)
Definition fill_row (artist : string) (row : gmap string cell)
  : gmap string cell :=
  let df :=
    fill_platform "instagram" "instagram_url" "instagram_handle"
      (fun handle => "https://www.instagram.com/" +:+ handle +:+ "/")
      (construct_instagram_url artist) row row in
  fill_platform "twitter" "twitter_url" "twitter_handle"
    (fun handle => "https://twitter.com/" +:+ handle)
    (construct_twitter_url artist) row df.

End fill_all_social_links.


(** * The Spotify search clients

    What the search endpoint answers to one request.  [retry_after] is the
    [Retry-After] header read as a number of seconds, when it is there
    (the header as a date, on which [int()] raises, is left out);
    [items] is [artists.items] of the body, each item a JSON object of
    which the clients read the keys ["name"] and ["id"]. *)

Abbreviation item := (gmap string string).

Inductive response : Type :=
| ConnectionError
| Reply (status : Z) (retry_after : option nat) (items : list item).

(** [resp.raise_for_status()] raises for the 4xx and 5xx codes. *)
Definition is_error_status (status : Z) : bool :=
  ((400 <=? status) && (status <? 600))%Z.

(** The result of a client call on a script of responses: what the call
    gives or raises, the pauses it made, and the responses left unread.
    The whole is [None] when the script ends while the call still waits
    for an answer. *)
Definition served (A : Type) : Type :=
  option (A * list nat * list response).

(** [enrich_remaining.py] *)

Module enrich_remaining.
Import PyStr.

(** The loop of [search_artist] over the candidates:
    [item.get("name", "").lower() == name.lower()]. *)
Fixpoint exact_match (name : string) (items : list item) : option item :=
  match items with
  | [] => None
  | i :: rest =>
      if String.eqb (lower (default EmptyString (i !! "name"))) (lower name)
      then Some i
      else exact_match name rest
  end.

(** The part of [search_artist] after the request. *)
Definition choose (name : string) (items : list item) : option item :=
  match items with
  | [] => None
  | first :: _ =>
      match exact_match name items with
      | Some i => Some i
      | None => Some first
      end
  end.

(** [SpotifyClient.search_artist].  Only [HTTPError] is handled: a failed
    connection propagates.  On 429 the method pauses and calls itself. *)
Fixpoint search_artist (name : string) (script : list response)
  : served (outcome (option item)) :=
  match script with
  | [] => None
  | ConnectionError :: rest => Some (Raise "ConnectionError", [], rest)
  | Reply status retry_after items :: rest =>
      if is_error_status status then
        if (status =? 429)%Z then
          match search_artist name rest with
          | Some (r, pauses, rest') =>
              Some (r, default 30%nat retry_after :: pauses, rest')
          | None => None
          end
        else Some (Return None, [], rest)
      else Some (Return (choose name items), [], rest)
  end.

(** What the three providers answer for one row.  A YouTube or SoundCloud
    hit is the pair of its URL and its channel id or handle. *)
Record replies : Type := {
  spotify_reply : outcome (option item);
  youtube_reply : outcome (option (string * string));
  soundcloud_reply : option (string * string)
}.

(** [row.get(col)], and [pd.isna] of it. *)
Definition get (row : gmap string cell) (col : string) : cell :=
  default None (row !! col).

Definition isna (v : cell) : bool :=
  match v with None => true | Some _ => false end.

(** [row.get("spotify_id") in (None, "", "nan")] *)
Definition blank (v : cell) : bool :=
  match v with
  | None => true
  | Some s => String.eqb s "" || String.eqb s "nan"
  end.

(** Truth value of a JSON object: [if spotify_artist:] *)
Definition nonempty (i : item) : bool := negb (bool_decide (i = ∅)).

Definition enrich_spotify (rp : replies) (st : gmap string cell * list string)
  : outcome (gmap string cell * list string) :=
  let '(row, sources) := st in
  match spotify_reply rp with
  | Raise e => Raise e
  | Return None => Return (row, sources)
  | Return (Some spotify_artist) =>
      if nonempty spotify_artist then
        let spotify_id := spotify_artist !! "id" in
        if isna (get row "spotify_id") || blank (get row "spotify_id")
        then Return (<["spotify_id" := spotify_id]> row, sources ++ ["spotify"])
        else Return (row, sources)
      else Return (row, sources)
  end.

Definition enrich_youtube (youtube : bool) (rp : replies)
    (st : gmap string cell * list string)
  : outcome (gmap string cell * list string) :=
  let '(row, sources) := st in
  if youtube && isna (get row "youtube_url") then
    match youtube_reply rp with
    | Raise e => Raise e
    | Return None => Return (row, sources)
    | Return (Some (url, channel_id)) =>
        Return (<["youtube_channel_id" := Some channel_id]>
                  (<["youtube_url" := Some url]> row),
                sources ++ ["youtube_api"])
    end
  else Return (row, sources).

Definition enrich_soundcloud (rp : replies) (st : gmap string cell * list string)
  : gmap string cell * list string :=
  let '(row, sources) := st in
  if isna (get row "soundcloud_url") then
    match soundcloud_reply rp with
    | None => (row, sources)
    | Some (url, handle) =>
        let row := <["soundcloud_url" := Some url]> row in
        let row :=
          if isna (get row "soundcloud_handle")
          then <["soundcloud_handle" := Some handle]> row
          else row in
        (row, sources ++ ["soundcloud_search"])
    end
  else (row, sources).

(** [enrich_row]: Spotify, then YouTube, then SoundCloud, on a copy of the
    row; [youtube] tells whether a YouTube client was configured. *)
Definition enrich_row (row : gmap string cell) (youtube : bool) (rp : replies)
  : outcome (gmap string cell * list string) :=
  match enrich_spotify rp (row, []) with
  | Raise e => Raise e
  | Return st =>
      match enrich_youtube youtube rp st with
      | Raise e => Raise e
      | Return st => Return (enrich_soundcloud rp st)
      end
  end.


Definition channel (channel_id : string) : string * string :=
  ("https://www.youtube.com/channel/" +:+ channel_id, channel_id).




(** What the SoundCloud search page answers. *)
Inductive page : Type :=
| PageFailed
| Page (status : Z) (text : string).

Definition skip_paths : list string :=
  [ "discover"; "search"; "stream"; "upload"; "you"; "pages";
    "settings"; "charts"; "stations"; "people"; "tracks"; "sets";
    "groups"; "tags"; "popular"; "pro"; "go"; "creators"; "feed";
    "library"; "messages"; "notifications"; "legal"; "jobs";
    "imprint"; "privacy"; "cookies"; "terms-of-use" ].

(** The loop over the matches: the first path that is not a known page
    of the site and is longer than one character. *)
Fixpoint first_profile (skip : list string) (matches : list string)
  : option (string * string) :=
  match matches with
  | [] => None
  | m :: rest =>
      if negb (bool_decide (lower m ∈ skip)) && (1 <? String.length m)%nat
      then Some ("https://soundcloud.com/" +:+ m, m)
      else first_profile skip rest
  end.

(** [search_soundcloud]: every request error gives [None]. *)
Definition search_soundcloud (r : page) : option (string * string) :=
  match r with
  | PageFailed => None
  | Page status text =>
      if is_error_status status then None
      else first_profile skip_paths (findall_href is_path_char 0 text)
  end.

Definition START_INDEX : nat := N.to_nat 27271.

Definition expected_columns : list string :=
  [ "artist_name"; "soundcharts_uuid"; "spotify_id";
    "instagram_url"; "instagram_handle";
    "tiktok_url"; "tiktok_handle";
    "youtube_url"; "youtube_channel_id";
    "soundcloud_url"; "soundcloud_handle";
    "twitter_url"; "twitter_handle";
    "facebook_url"; "website_url";
    "lookup_status"; "error_message" ].

(** The table read from the CSV file: its header and its rows. *)
Record dataframe : Type := {
  columns : list string;
  rows : list (gmap string cell)
}.

Global Instance dataframe_eq_dec : EqDecision dataframe.
Proof. solve_decision. Defined.

(** The write-back of [run_pipeline] for one column. *)
Definition write_back (updated_row : gmap string cell)
    (row : gmap string cell) (col : string) : gmap string cell :=
  match get row col, get updated_row col with
  | None, Some new_val => <[col := Some new_val]> row
  | _, _ => row
  end.

(** The new [lookup_status] of a row to which [sources] contributed. *)
Definition tag_status (sources : list string) (row : gmap string cell)
  : gmap string cell :=
  match sources with
  | [] => row
  | _ =>
      let source_tag := join "," sources in
      if bool_decide (get row "lookup_status" = Some "success")
      then <["lookup_status" := Some ("success+" +:+ source_tag)]> row
      else <["lookup_status" := Some source_tag]> row
  end.

(** The body of the loop of [run_pipeline] on the row at [idx]. *)
Definition process_row (youtube : bool) (rp : replies) (row : gmap string cell)
  : gmap string cell :=
  match enrich_row row youtube rp with
  | Return (updated_row, sources) =>
      tag_status sources (foldl (write_back updated_row) row expected_columns)
  | Raise e => <["error_message" := Some e]> row
  end.

(** [run_pipeline]: the schema check, then the rows from [START_INDEX] on.
    [net idx] is what the providers answer while row [idx] is processed. *)
Definition run_from (start : nat) (youtube : bool) (net : nat -> replies)
    (rs : list (gmap string cell)) : list (gmap string cell) :=
  foldl (fun rs idx => alter (process_row youtube (net idx)) idx rs)
        rs (seq start (length rs - start)).

Definition run_pipeline (youtube : bool) (net : nat -> replies) (df : dataframe)
  : outcome dataframe :=
  match List.find (fun col => negb (bool_decide (col ∈ columns df)))
                  expected_columns with
  | Some col => Raise ("Missing expected column: " +:+ col)
  | None =>
      Return {| columns := columns df;
                rows := run_from START_INDEX youtube net (rows df) |}
  end.

End enrich_remaining.

(** [enrich_dj_parallel.py] *)

Module enrich_dj_parallel.
Import PyStr.

Definition COLUMNS : list string := enrich_remaining.expected_columns.

(** [{col: None for col in COLUMNS}] *)
Definition blank_row : gmap string cell :=
  list_to_map ((fun col => (col, None)) <$> COLUMNS).

(** [",".join(sources) if sources else "no_results"] *)
Definition status_of (sources : list string) : string :=
  match sources with
  | [] => "no_results"
  | _ => join "," sources
  end.

(** [enrich_artist]: [spotify] and [soundcloud] are what the two calls
    give or raise; each call sits in its own [try ... except: pass]. *)
Definition enrich_artist (artist_name : string) (sc_uuid : cell)
    (spotify : outcome (option item))
    (soundcloud : outcome (option (string * string)))
  : gmap string cell :=
  let row := <["artist_name" := Some artist_name]> blank_row in
  let row := <["soundcharts_uuid" := sc_uuid]> row in
  let sources : list string := [] in
  let '(row, sources) :=
    match spotify with
    | Return (Some result) =>
        if enrich_remaining.nonempty result
        then (<["spotify_id" := result !! "id"]> row, sources ++ ["spotify"])
        else (row, sources)
    | _ => (row, sources)
    end in
  let '(row, sources) :=
    match soundcloud with
    | Return (Some (url, handle)) =>
        (<["soundcloud_handle" := Some handle]>
           (<["soundcloud_url" := Some url]> row),
         sources ++ ["soundcloud"])
    | _ => (row, sources)
    end in
  <["lookup_status" := Some (status_of sources)]> row.

(** The class of the pattern of this file, [[\\w\\-]] in a raw string:
    the backslash, the letter w and the hyphen. *)
Definition is_pattern_char (c : ascii) : bool :=
  (code c =? 92)%N || (code c =? 119)%N || (code c =? 45)%N.

(** [search_soundcloud] *)
Definition search_soundcloud (r : enrich_remaining.page)
  : option (string * string) :=
  match r with
  | enrich_remaining.PageFailed => None
  | enrich_remaining.Page status text =>
      if is_error_status status then None
      else enrich_remaining.first_profile enrich_remaining.skip_paths
             (findall_href is_pattern_char 0 text)
  end.

End enrich_dj_parallel.

(** [dj_chunk_runner.py] *)

Module dj_chunk_runner.
Import PyStr.

Definition COLUMNS : list string := enrich_remaining.expected_columns.

(** [SpotifyClient.search]: the whole body is inside [try ... except:
    return None], the retry included, so nothing propagates. *)
Fixpoint search (name : string) (script : list response)
  : served (option item) :=
  match script with
  | [] => None
  | ConnectionError :: rest => Some (None, [], rest)
  | Reply status retry_after items :: rest =>
      if (status =? 429)%Z then
        match search name rest with
        | Some (r, pauses, rest') =>
            Some (r, default 3%nat retry_after :: pauses, rest')
        | None => None
        end
      else if is_error_status status then Some (None, [], rest)
      else Some (enrich_remaining.choose name items, [], rest)
  end.

(** [str(v)] of a cell: [NaN] prints as nan. *)
Definition str (v : cell) : string := default "nan" v.

(** What the two providers answer for the row at one index. *)
Record replies : Type := {
  spotify_reply : option item;
  soundcloud_reply : option (string * string)
}.

(** The body of the loop of [process] for one input row. *)
Definition process_row (input : gmap string cell) (rp : replies)
  : gmap string cell :=
  let name := strip (str (default None (input !! "artist_name"))) in
  let uuid := str (default (Some EmptyString) (input !! "soundcharts_uuid")) in
  let uuid : cell :=
    if bool_decide (uuid ∈ ["nan"; "None"; ""]) then None else Some uuid in
  let r : gmap string cell := list_to_map ((fun c => (c, None)) <$> COLUMNS) in
  let r := <["artist_name" := Some name]> r in
  let r := <["soundcharts_uuid" := uuid]> r in
  let src : list string := [] in
  let '(r, src) :=
    match spotify_reply rp with
    | Some res =>
        if enrich_remaining.nonempty res
        then (<["spotify_id" := res !! "id"]> r, src ++ ["spotify"])
        else (r, src)
    | None => (r, src)
    end in
  let '(r, src) :=
    match soundcloud_reply rp with
    | Some (url, handle) =>
        (<["soundcloud_handle" := Some handle]>
           (<["soundcloud_url" := Some url]> r),
         src ++ ["soundcloud"])
    | None => (r, src)
    end in
  <["lookup_status" :=
      Some (match src with [] => "no_results" | _ => join "," src end)]> r.

(** [process(start, end, outfile)]: the rows written to [outfile] at the
    end, for the input table [df]; [net i] is what the providers answer
    for row [i]. *)
Definition process (start end_ : nat) (df : list (gmap string cell))
    (net : nat -> replies) : list (gmap string cell) :=
  let end_ := Nat.min end_ (length df) in
  omap (fun i => (fun input => process_row input (net i)) <$> df !! i)
       (seq start (end_ - start)).

Definition skip : list string :=
  [ "discover"; "search"; "stream"; "upload"; "you"; "pages"; "settings";
    "charts"; "stations"; "people"; "tracks"; "sets"; "groups"; "tags";
    "popular"; "pro"; "go"; "creators"; "feed"; "library" ].


End dj_chunk_runner.

(** * [social_links_pipeline.py]: resume, cache, worker pool *)

Module social_links_pipeline.
Import PyStr.

(** A candidate of the MusicBrainz search: the keys of the JSON object
    that the script reads, each possibly absent. *)
Record mb_artist : Type := {
  mb_id : option string;
  mb_score : option Z;
  mb_country : option string
}.

(** A relation of an artist: [rel.get("url", {}).get("resource", "")] and
    [rel.get("type")]. *)
Record relation : Type := {
  resource : string;
  rel_type : option string
}.

(** A request either fails (the call or the decoding of its body raises)
    or gives a body. *)
Inductive reply (A : Type) : Type :=
| Failed
| Body (a : A).
Arguments Failed {A}.
Arguments Body {A} a.

(** The MusicBrainz service: the candidates it lists for a name (an
    absent ["artists"] key reads as the empty list) and the relations it
    lists for an identifier. *)
Record server : Type := {
  search_reply : string -> reply (list mb_artist);
  lookup_reply : string -> reply (list relation)
}.

(** Tables and files. *)
Record table : Type := {
  header : list string;
  body : list (list cell)
}.

Inductive file : Type :=
| JsonFile (d : gmap string string)
| CsvFile (t : table)
| Workbook (sheets : gmap string table).

Global Instance table_eq_dec : EqDecision table.
Proof. solve_decision. Defined.

Global Instance file_eq_dec : EqDecision file.
Proof. solve_decision. Defined.

(** The state of the script: the global [mb_id_cache] and the disk. *)
Record state : Type := {
  mb_id_cache : gmap string string;
  disk : gmap string file
}.

Global Instance state_eq_dec : EqDecision state.
Proof. solve_decision. Defined.

Definition file_paths : list string :=
  [ "Final_Social Links/rappers_final_enriched (michelle ivanova's conflicted copy).xlsx";
    "Final_Social Links/female_singers_final.xlsx";
    "Final_Social Links/dj_producers_final.xlsx" ].

Definition MB_CACHE_FILE : string := "musicbrainz_id_cache.json".

(** The start of the script: the cache file is loaded when it exists. *)
Definition startup (d : gmap string file) : state :=
  {| mb_id_cache := match d !! MB_CACHE_FILE with
                    | Some (JsonFile c) => c
                    | _ => ∅
                    end;
     disk := d |}.

(** The first half of [get_all_social_links]: finding the identifier.
    [Found] carries the local variable [data], which is bound only by the
    search branch; [Stop] is an early [return None] or a caught error. *)
Inductive resolved : Type :=
| Found (artist_id : string) (data : option (list mb_artist)) (st : state)
| Stop (st : state).

Definition resolve (srv : server) (artist_name : string) (st : state)
  : resolved :=
  match mb_id_cache st !! artist_name with
  | Some artist_id => Found artist_id None st
  | None =>
      match search_reply srv artist_name with
      | Failed => Stop st
      | Body artists =>
          match artists with
          | [] => Stop st
          | first :: _ =>
              if (default 0 (mb_score first) <? 90)%Z then Stop st
              else
                match mb_id first with
                | None => Stop st
                | Some artist_id =>
                    let cache := <[artist_name := artist_id]> (mb_id_cache st) in
                    Found artist_id (Some artists)
                      {| mb_id_cache := cache;
                         disk := <[MB_CACHE_FILE := JsonFile cache]> (disk st) |}
                end
          end
      end
  end.

Definition has (key : string) (urls : gmap string string) : bool :=
  bool_decide (is_Some (urls !! key)).

(** [url.rstrip("/").split("/")[-1]] *)
Definition last_segment (url : string) : string :=
  default EmptyString (last (split "/" (rstrip "/" url))).

(** One turn of the loop over the relations. *)
Definition add_relation (urls : gmap string string) (rel : relation)
  : gmap string string :=
  let url := resource rel in
  if contains "instagram.com" url && negb (has "instagram_url" urls) then
    <["instagram_handle" := last_segment url]> (<["instagram_url" := url]> urls)
  else if contains "tiktok.com" url && negb (has "tiktok_url" urls) then
    <["tiktok_handle" := replace "@" "" (last_segment url)]>
      (<["tiktok_url" := url]> urls)
  else if contains "youtube.com" url && negb (has "youtube_url" urls) then
    <["youtube_channel_id" := last_segment url]> (<["youtube_url" := url]> urls)
  else if contains "soundcloud.com" url && negb (has "soundcloud_url" urls) then
    <["soundcloud_handle" := last_segment url]> (<["soundcloud_url" := url]> urls)
  else if contains "twitter.com" url && negb (has "twitter_url" urls) then
    <["twitter_handle" := last_segment url]> (<["twitter_url" := url]> urls)
  else if contains "facebook.com" url && negb (has "facebook_url" urls) then
    <["facebook_url" := url]> urls
  else if bool_decide (rel_type rel = Some "official homepage")
          && negb (has "website_url" urls) then
    <["website_url" := url]> urls
  else urls.

(** [get_all_social_links]: the result and the state left behind.  Every
    error inside the body is caught by [except: return None]; reading
    [data] when it is not bound is such an error. *)
Definition get_all_social_links (srv : server) (artist_name : string)
    (st : state) : option (gmap string string) * state :=
  match resolve srv artist_name st with
  | Stop st' => (None, st')
  | Found artist_id data st' =>
      match lookup_reply srv artist_id with
      | Failed => (None, st')
      | Body relations =>
          match data with
          | None => (None, st')
          | Some [] => (None, st')
          | Some (first :: _) =>
              let artist_country := default EmptyString (mb_country first) in
              let urls :=
                foldl add_relation {["artist_country" := artist_country]}
                      relations in
              (if bool_decide (urls = ∅) then None else Some urls, st')
          end
      end
  end.

Definition save_interval : nat := 500.

Definition social_cols : list string :=
  [ "Artist"; "Artist country"; "instagram_url"; "instagram_handle";
    "tiktok_url"; "tiktok_handle"; "youtube_url"; "youtube_channel_id";
    "soundcloud_url"; "soundcloud_handle"; "twitter_url"; "twitter_handle";
    "facebook_url"; "website_url" ].

(** [pd.DataFrame(results, columns=social_cols)] *)
Definition frame (results : list (gmap string cell)) : table :=
  {| header := social_cols;
     body := (fun r => (fun c => default None (r !! c)) <$> social_cols)
               <$> results |}.

(** [df.to_dict("records")] *)
Definition records (t : table) : list (gmap string cell) :=
  (fun line => list_to_map (zip (header t) line)) <$> body t.

(** [df[col]] *)
Definition column (t : table) (col : string) : list cell :=
  (fun r => default None (r !! col)) <$> records t.

(** [.dropna().unique().tolist()]: first occurrences, in order. *)
Fixpoint unique_from (seen : list string) (l : list cell) : list string :=
  match l with
  | [] => []
  | None :: rest => unique_from seen rest
  | Some a :: rest =>
      if bool_decide (a ∈ seen) then unique_from seen rest
      else a :: unique_from (a :: seen) rest
  end.

(** [.astype(str)] of a cell. *)
Definition str (v : cell) : string := default "nan" v.

(** The column of artist names of the sheet; [None] is the [IndexError]
    of [columns[0]] on a sheet without columns. *)
Definition find_artist_col (cols : list string) : option string :=
  match cols with
  | [] => None
  | first :: _ =>
      Some (default first
              (List.find (fun c => contains "artist" (lower c)
                                   || contains "name" (lower c)) cols))
  end.

(** Lines 99 to 111: the processed set and the rows already there. *)
Definition load_checkpoint (d : gmap string file) (CHECKPOINT_CSV : string)
  : outcome (gset string * list (gmap string cell)) :=
  match d !! CHECKPOINT_CSV with
  | None => Return (∅, [])
  | Some (CsvFile df_checkpoint) =>
      let processed : gset string :=
        match List.find (fun c => contains "artist" (lower c))
                        (header df_checkpoint) with
        | Some c => list_to_set (str <$> column df_checkpoint c)
        | None => ∅
        end in
      Return (processed, records df_checkpoint)
  | Some _ => Raise "ParserError"
  end.

(** [process_artist] *)
Definition process_artist (srv : server) (artist : string) (st : state)
  : gmap string cell * state :=
  let '(links, st) := get_all_social_links srv artist st in
  let row : gmap string cell := {["Artist" := Some artist]} in
  match links with
  | Some l => if bool_decide (l = ∅) then (row, st)
              else ((Some <$> l) ∪ row, st)
  | None => (row, st)
  end.

(** One turn of the loop over the completed futures. *)
Definition collect (srv : server) (CHECKPOINT_CSV : string)
    (acc : list (gmap string cell) * state) (job : nat * string)
  : list (gmap string cell) * state :=
  let '(results, st) := acc in
  let '(idx, artist) := job in
  let '(row, st) := process_artist srv artist st in
  let results := results ++ [row] in
  if (idx mod save_interval =? 0)%nat
  then (results,
        {| mb_id_cache := mb_id_cache st;
           disk := <[CHECKPOINT_CSV := CsvFile (frame results)]> (disk st) |})
  else (results, st).

(** [enumerate(as_completed(futures), start=1)] for the order [done] in
    which the futures complete. *)
Definition jobs (done : list string) : list (nat * string) :=
  zip (seq 1 (length done)) done.

(** What one turn of the loop over [file_paths] has read and decided
    before the pool starts. *)
Record plan : Type := {
  CHECKPOINT_CSV : string;
  results0 : list (gmap string cell);
  artists : list string
}.

Definition prepare (file_path : string) (st : state) : outcome plan :=
  let checkpoint := replace ".xlsx" "_CHECKPOINT.csv" file_path in
  match disk st !! file_path with
  | Some (Workbook sheets) =>
      match sheets !! "Sheet1" with
      | Some df_artists =>
          match find_artist_col (header df_artists) with
          | Some artist_col =>
              match load_checkpoint (disk st) checkpoint with
              | Return (processed, results) =>
                  Return {| CHECKPOINT_CSV := checkpoint;
                            results0 := results;
                            artists :=
                              List.filter
                                (fun a => negb (bool_decide (a ∈ processed)))
                                (unique_from [] (column df_artists artist_col)) |}
              | Raise e => Raise e
              end
          | None => Raise "IndexError"
          end
      | None => Raise "ValueError"
      end
  | _ => Raise "FileNotFoundError"
  end.

Global Instance plan_eq_dec : EqDecision plan.
Proof. solve_decision. Defined.

(** The end of the turn: the final table goes to the checkpoint file and
    to the sheet "Social Links" of the workbook. *)
Definition finish (file_path : string) (p : plan)
    (acc : list (gmap string cell) * state) : state :=
  let '(results, st) := acc in
  let df_final := frame results in
  let d := <[CHECKPOINT_CSV p := CsvFile df_final]> (disk st) in
  let d :=
    match d !! file_path with
    | Some (Workbook sheets) =>
        <[file_path := Workbook (<["Social Links" := df_final]> sheets)]> d
    | _ => d
    end in
  {| mb_id_cache := mb_id_cache st; disk := d |}.

(** One turn of the loop over [file_paths].  [sched] is the pool: the
    order in which the submitted artists complete. *)
Definition process_file (srv : server) (sched : list string -> list string)
    (st : state) (file_path : string) : outcome state :=
  match prepare file_path st with
  | Raise e => Raise e
  | Return p =>
      Return (finish file_path p
                (foldl (collect srv (CHECKPOINT_CSV p)) (results0 p, st)
                       (jobs (sched (artists p)))))
  end.

(** The same turn, stopped by the end of the process when [k] futures
    have completed: what is then on the disk. *)
Definition process_file_killed (k : nat) (srv : server)
    (sched : list string -> list string) (st : state) (file_path : string)
  : outcome (gmap string file) :=
  match prepare file_path st with
  | Raise e => Raise e
  | Return p =>
      Return (disk (snd (foldl (collect srv (CHECKPOINT_CSV p)) (results0 p, st)
                               (take k (jobs (sched (artists p)))))))
  end.

(** The script over a list of workbooks, from the files on the disk. *)
Fixpoint over_files (srv : server) (sched : list string -> list string)
    (paths : list string) (st : state) : outcome state :=
  match paths with
  | [] => Return st
  | file_path :: rest =>
      match process_file srv sched st file_path with
      | Return st' => over_files srv sched rest st'
      | Raise e => Raise e
      end
  end.

Definition main (srv : server) (sched : list string -> list string)
    (d : gmap string file) : outcome (gmap string file) :=
  match over_files srv sched file_paths (startup d) with
  | Return st => Return (disk st)
  | Raise e => Raise e
  end.

(** The script stopped by the end of the process in the turn of workbook
    number [n] (from 0), when [k] futures of that turn have completed:
    what is then on the disk. *)
Fixpoint over_files_killed (n k : nat) (srv : server)
    (sched : list string -> list string) (paths : list string) (st : state)
  : outcome (gmap string file) :=
  match paths with
  | [] => Return (disk st)
  | file_path :: rest =>
      match n with
      | O => process_file_killed k srv sched st file_path
      | S n' =>
          match process_file srv sched st file_path with
          | Return st' => over_files_killed n' k srv sched rest st'
          | Raise e => Raise e
          end
      end
  end.

Definition main_killed (n k : nat) (srv : server)
    (sched : list string -> list string) (d : gmap string file)
  : outcome (gmap string file) :=
  over_files_killed n k srv sched file_paths (startup d).

(** The output of the script for a workbook: its sheet "Social Links". *)
Definition social_links (d : gmap string file) (file_path : string)
  : option table :=
  match d !! file_path with
  | Some (Workbook sheets) => sheets !! "Social Links"
  | _ => None
  end.

End social_links_pipeline.

(** * Notions used by the statements *)

Module Props.
Import PyStr.

(** Every character of [s] is in the class. *)
Fixpoint all_chars (cls : ascii -> bool) (s : string) : bool :=
  match s with
  | EmptyString => true
  | String c s' => cls c && all_chars cls s'
  end.

(** A handle as name normalization produces it: not empty, made of
    [[a-z0-9_]]. *)
Definition normalized (h : string) : Prop :=
  h <> EmptyString /\ all_chars is_handle_char h = true.


(** A rate-limit response, and the pause a client makes on it when the
    header is absent for [dflt] seconds. *)
Definition is_429 (r : response) : bool :=
  match r with
  | Reply status _ _ => (status =? 429)%Z
  | ConnectionError => false
  end.

Definition pause_of (dflt : nat) (r : response) : nat :=
  match r with
  | Reply _ retry_after _ => default dflt retry_after
  | ConnectionError => dflt
  end.

(** What each client makes of a response that is not a rate limit. *)
Definition answer_remaining (name : string) (r : response)
  : outcome (option item) :=
  match r with
  | ConnectionError => Raise "ConnectionError"
  | Reply status _ items =>
      if is_error_status status then Return None
      else Return (enrich_remaining.choose name items)
  end.

Definition answer_chunk (name : string) (r : response) : option item :=
  match r with
  | ConnectionError => None
  | Reply status _ items =>
      if is_error_status status then None
      else enrich_remaining.choose name items
  end.

(** Whether a provider call of [enrich_artist] contributes to the row. *)
Definition spotify_gives (sp : outcome (option item)) : bool :=
  match sp with
  | Return (Some result) => enrich_remaining.nonempty result
  | _ => false
  end.

Definition soundcloud_gives (sc : outcome (option (string * string))) : bool :=
  match sc with
  | Return (Some _) => true
  | _ => false
  end.

(** The [lookup_status] for each combination of contributions. *)
Definition status_for (spotify soundcloud : bool) : string :=
  match spotify, soundcloud with
  | true, true => "spotify,soundcloud"
  | true, false => "spotify"
  | false, true => "soundcloud"
  | false, false => "no_results"
  end.




(** The checkpoint file of a workbook. *)
Definition checkpoint_of (file_path : string) : string :=
  replace ".xlsx" "_CHECKPOINT.csv" file_path.


(** The keys that the loop over the relations of an artist can write. *)
Definition link_keys : list string :=
  [ "instagram_url"; "instagram_handle"; "tiktok_url"; "tiktok_handle";
    "youtube_url"; "youtube_channel_id"; "soundcloud_url"; "soundcloud_handle";
    "twitter_url"; "twitter_handle"; "facebook_url"; "website_url" ].

(** In a dictionary of links, a handle is there only with its URL. *)
Definition paired (urls : gmap string string) : Prop :=
  (urls !! "instagram_url" = None -> urls !! "instagram_handle" = None)
  /\ (urls !! "tiktok_url" = None -> urls !! "tiktok_handle" = None)
  /\ (urls !! "youtube_url" = None -> urls !! "youtube_channel_id" = None)
  /\ (urls !! "soundcloud_url" = None -> urls !! "soundcloud_handle" = None)
  /\ (urls !! "twitter_url" = None -> urls !! "twitter_handle" = None).

(** One relation writes the keys of one platform, and only when the URL
    key of the platform is not there yet. *)
Inductive written (urls urls' : gmap string string) : Prop :=
| written_none : urls' = urls -> written urls urls'
| written_pair (u h : string) (x y : string) :
    (u, h) ∈ [ ("instagram_url", "instagram_handle");
               ("tiktok_url", "tiktok_handle");
               ("youtube_url", "youtube_channel_id");
               ("soundcloud_url", "soundcloud_handle");
               ("twitter_url", "twitter_handle") ] ->
    urls !! u = None ->
    urls' = <[h := y]> (<[u := x]> urls) ->
    written urls urls'
| written_one (u x : string) :
    u ∈ ["facebook_url"; "website_url"] ->
    urls !! u = None ->
    urls' = <[u := x]> urls ->
    written urls urls'.



(** After a step the row is the one it was, with the flag down, or it
    has a social link, with the flag up. *)
Definition step_ok (row : gmap string cell) (acc : gmap string cell * bool)
  : Prop :=
  acc = (row, false) \/ (acc.2 = true /\ enrich_musicbrainz.has_social acc.1 = true).

(** The columns that a step may write over a value. *)
Definition kept (row : gmap string cell) (acc : gmap string cell * bool)
  : Prop :=
  forall col v,
    col ∉ ["instagram_handle"; "twitter_handle"; "tiktok_handle";
           "lookup_status"] ->
    row !! col = Some (Some v) -> acc.1 !! col = Some (Some v).

End Props.

(** * Data of the scenarios *)

Module Scenario.

(** The artist object of the scenario: only its identifier. *)
Definition drake : item := {["id" := "3TVXtAsR1Inumwj472S9r4"]}.

(** The same with its name, as the search lists it. *)
Definition drake_named : item :=
  {["id" := "3TVXtAsR1Inumwj472S9r4"; "name" := "Drake"]}.

(** A 429 response with [Retry-After: 3], and a good response. *)
Definition limited : response := Reply 429 (Some 3%nat) [].
Definition found : response := Reply 200 None [drake_named].

(** MusicBrainz in the scenarios: one candidate for Drake, with a score
    of 100 or of 80, and one relation, the Instagram profile. *)
Definition mb_drake : social_links_pipeline.mb_artist :=
  {| social_links_pipeline.mb_id := Some "9fff2f8a-21e6-47de-a2b8-7f449929d43f";
     social_links_pipeline.mb_score := Some 100%Z;
     social_links_pipeline.mb_country := Some "CA" |}.


Definition drake_relations : list social_links_pipeline.relation :=
  [ {| social_links_pipeline.resource := "https://www.instagram.com/champagnepapi/";
       social_links_pipeline.rel_type := Some "social network" |} ].

Definition mb_adele : social_links_pipeline.mb_artist :=
  {| social_links_pipeline.mb_id := Some "cc2c9c3c-b7bc-4b8b-84d8-4fbd8779e493";
     social_links_pipeline.mb_score := Some 100%Z;
     social_links_pipeline.mb_country := Some "GB" |}.

Definition adele_relations : list social_links_pipeline.relation :=
  [ {| social_links_pipeline.resource := "https://www.instagram.com/adele/";
       social_links_pipeline.rel_type := Some "social network" |} ].

Definition musicbrainz : social_links_pipeline.server :=
  {| social_links_pipeline.search_reply := fun name =>
       if String.eqb name "Drake" then social_links_pipeline.Body [mb_drake]
       else if String.eqb name "Adele" then social_links_pipeline.Body [mb_adele]
       else social_links_pipeline.Body [];
     social_links_pipeline.lookup_reply := fun artist_id =>
       if String.eqb artist_id "9fff2f8a-21e6-47de-a2b8-7f449929d43f"
       then social_links_pipeline.Body drake_relations
       else if String.eqb artist_id "cc2c9c3c-b7bc-4b8b-84d8-4fbd8779e493"
       then social_links_pipeline.Body adele_relations
       else social_links_pipeline.Body [] |}.


(** The script started with no file on the disk but the workbooks. *)
Definition fresh : social_links_pipeline.state :=
  {| social_links_pipeline.mb_id_cache := ∅;
     social_links_pipeline.disk := ∅ |}.

(** The state after a start that found Drake in the cache file. *)
Definition cached : social_links_pipeline.state :=
  social_links_pipeline.startup
    {[ social_links_pipeline.MB_CACHE_FILE :=
         social_links_pipeline.JsonFile
           {[ "Drake" := "9fff2f8a-21e6-47de-a2b8-7f449929d43f" ]} ]}.

(** The one-record run: Spotify gives the artist, SoundCloud nothing. *)
Definition drake_row : gmap string cell :=
  enrich_dj_parallel.enrich_artist "Drake" None
    (Return (Some drake)) (Return None).

Definition drake_rows : list (gmap string cell) :=
  dj_chunk_runner.process 0 1 [ {["artist_name" := Some "Drake"]} ]
    (fun _ => {| dj_chunk_runner.spotify_reply := Some drake;
                 dj_chunk_runner.soundcloud_reply := None |}).

(** A row of [rappers_enriched.csv] that the earlier lookup left without
    links, and a table with that row at [START_INDEX]. *)
Definition pending_row : gmap string cell :=
  <["lookup_status" := Some "not_found"]>
    (<["artist_name" := Some "Drake"]> enrich_dj_parallel.blank_row).



Definition second_run (_ : nat) : enrich_remaining.replies :=
  {| enrich_remaining.spotify_reply := Return (Some drake);
     enrich_remaining.youtube_reply := Return None;
     enrich_remaining.soundcloud_reply :=
       Some ("https://soundcloud.com/octobersveryown", "octobersveryown") |}.




(** The three workbooks, each with one artist in its Sheet1, and nothing
    else on the disk. *)
Definition workbook (artist : string) : social_links_pipeline.file :=
  social_links_pipeline.Workbook
    {[ "Sheet1" := {| social_links_pipeline.header := ["Artist"];
                      social_links_pipeline.body := [[Some artist]] |} ]}.

Definition rappers : string :=
  "Final_Social Links/rappers_final_enriched (michelle ivanova's conflicted copy).xlsx".
Definition singers : string := "Final_Social Links/female_singers_final.xlsx".
Definition producers : string := "Final_Social Links/dj_producers_final.xlsx".

Definition workbooks : gmap string social_links_pipeline.file :=
  {[ rappers := workbook "Drake";
     singers := workbook "Adele";
     producers := workbook "Tiesto" ]}.

(** The pool completes the futures in the order of submission. *)
Definition in_order (l : list string) : list string := l.

Definition disk_of (r : outcome (gmap string social_links_pipeline.file))
  : gmap string social_links_pipeline.file :=
  match r with Return d => d | Raise _ => ∅ end.

(** A run to its end. *)
Definition uninterrupted : gmap string social_links_pipeline.file :=
  disk_of (social_links_pipeline.main musicbrainz in_order workbooks).

(** A run stopped in the turn of the second workbook, after the future
    of its artist has completed and before the table is written; and the
    run started again on what the first left. *)
Definition interrupted : gmap string social_links_pipeline.file :=
  disk_of (social_links_pipeline.main_killed 1 1 musicbrainz in_order workbooks).

Definition resumed : gmap string social_links_pipeline.file :=
  disk_of (social_links_pipeline.main musicbrainz in_order interrupted).

(** The same, stopped in the turn of the first workbook. *)
Definition interrupted_early : gmap string social_links_pipeline.file :=
  disk_of (social_links_pipeline.main_killed 0 1 musicbrainz in_order workbooks).

Definition resumed_early : gmap string social_links_pipeline.file :=
  disk_of (social_links_pipeline.main musicbrainz in_order interrupted_early).

(** The lines of the final tables. *)
Definition line (artist : string) (instagram : option (string * string))
  : list cell :=
  [ Some artist; None; fst <$> instagram; snd <$> instagram;
    None; None; None; None; None; None; None; None; None; None ].

Definition final_table (lines : list (list cell)) : social_links_pipeline.table :=
  {| social_links_pipeline.header := social_links_pipeline.social_cols;
     social_links_pipeline.body := lines |}.

(** A table of one row, which is before [START_INDEX]. *)
Definition small_table : enrich_remaining.dataframe :=
  {| enrich_remaining.columns := enrich_remaining.expected_columns;
     enrich_remaining.rows := [pending_row] |}.


(** A row that has its three identities already. *)
Definition enriched_row : gmap string cell :=
  <["soundcloud_url" := Some "https://soundcloud.com/octobersveryown"]>
    (<["youtube_url" := Some "https://www.youtube.com/channel/UCByOQJjav0CUDwxCk-jVNRQ"]>
       (<["spotify_id" := Some "3TVXtAsR1Inumwj472S9r4"]> pending_row)).

(** Two Instagram relations of one artist. *)
Definition two_profiles : list social_links_pipeline.relation :=
  [ {| social_links_pipeline.resource := "https://www.instagram.com/champagnepapi/";
       social_links_pipeline.rel_type := Some "social network" |};
    {| social_links_pipeline.resource := "https://www.instagram.com/ovosound/";
       social_links_pipeline.rel_type := Some "social network" |} ].

(** What the resumed run plans for the first workbook: the row of the
    checkpoint, and nobody to look up. *)
Definition resume_plan : social_links_pipeline.plan :=
  {| social_links_pipeline.CHECKPOINT_CSV :=
       Props.checkpoint_of rappers;
     social_links_pipeline.results0 :=
       social_links_pipeline.records
         (final_table
            [line "Drake" (Some ("https://www.instagram.com/champagnepapi/",
                                 "champagnepapi"))]);
     social_links_pipeline.artists := [] |}.

(** What the lookup of Drake returns on a fresh start, and the state it
    leaves. *)
Definition drake_urls : gmap string string :=
  {[ "artist_country" := "CA";
     "instagram_url" := "https://www.instagram.com/champagnepapi/";
     "instagram_handle" := "champagnepapi" ]}.

Definition after_drake : social_links_pipeline.state :=
  (social_links_pipeline.get_all_social_links musicbrainz "Drake" fresh).2.

(** The state of the script at its start on the three workbooks, and
    the plan of the first turn. *)
Definition at_start : social_links_pipeline.state :=
  social_links_pipeline.startup workbooks.

Definition first_plan : social_links_pipeline.plan :=
  {| social_links_pipeline.CHECKPOINT_CSV := Props.checkpoint_of rappers;
     social_links_pipeline.results0 := [];
     social_links_pipeline.artists := ["Drake"] |}.

Definition after_first_turn : social_links_pipeline.state :=
  match social_links_pipeline.process_file musicbrainz in_order at_start rappers with
  | Return st => st
  | Raise _ => at_start
  end.



(** A row without links, and what MusicBrainz knows of its artist. *)
Definition bare_row : gmap string cell :=
  {[ "artist_name" := Some "Drake"; "lookup_status" := Some "not_found" ]}.

Definition mb_urls : gmap string string :=
  {[ "instagram" := "https://www.instagram.com/champagnepapi" ]}.

End Scenario.

(** A closed equation between values with decidable equality, settled
    by evaluation. *)
Ltac evaluate :=
  match goal with |- ?P => apply (@bool_decide_unpack P _) end;
  vm_compute; exact I.

(** * Lemmas on Python strings *)

Section string_lemmas.
Import PyStr Props.

Lemma append_nil_l (s : string) : "" +:+ s = s.
Proof. reflexivity. Qed.

Lemma append_cons (c : ascii) (s t : string) :
  String c s +:+ t = String c (s +:+ t).
Proof. reflexivity. Qed.

Lemma append_eq_nil (s t : string) : s +:+ t = "" -> s = "" /\ t = "".
Proof.
  destruct s as [|c s]; [rewrite append_nil_l; by intros -> |].
  rewrite append_cons. discriminate.
Qed.

Lemma all_chars_impl (cls1 cls2 : ascii -> bool) (s : string) :
  (forall c, cls1 c = true -> cls2 c = true) ->
  all_chars cls1 s = true -> all_chars cls2 s = true.
Proof.
  intros Hc. induction s as [|c s IH]; simpl; [done|].
  intros [H1 H2]%andb_prop. rewrite (Hc _ H1), (IH H2). done.
Qed.

Lemma all_chars_keep (cls : ascii -> bool) (s : string) :
  all_chars cls (keep cls s) = true.
Proof.
  induction s as [|c s IH]; simpl; [done|].
  destruct (cls c) eqn:E; simpl; [rewrite E|]; done.
Qed.

Lemma keep_all (cls : ascii -> bool) (s : string) :
  all_chars cls s = true -> keep cls s = s.
Proof.
  induction s as [|c s IH]; simpl; [done|].
  intros [-> H2]%andb_prop. by rewrite IH.
Qed.

Lemma take_while_all (cls : ascii -> bool) (s : string) :
  all_chars cls s = true -> take_while cls s = s.
Proof.
  induction s as [|c s IH]; simpl; [done|].
  intros [-> H2]%andb_prop. by rewrite IH.
Qed.

(** White space is not part of a handle, so dropping it first changes
    nothing once the other characters are removed. *)
Lemma space_not_handle (c : ascii) : is_space c = true -> is_handle_char c = false.
Proof. by destruct c as [[] [] [] [] [] [] [] []]. Qed.

Lemma keep_drop_space (s : string) :
  keep is_handle_char (drop_while is_space s) = keep is_handle_char s.
Proof.
  induction s as [|c s IH]; simpl; [done|].
  destruct (is_space c) eqn:E; [|done].
  by rewrite (space_not_handle _ E).
Qed.

Lemma lower_append (s t : string) : lower (s +:+ t) = lower s +:+ lower t.
Proof. induction s as [|c s IH]; simpl; [done|]. by rewrite append_cons, IH. Qed.

Lemma handle_char_lower (c : ascii) :
  is_handle_char c = true -> lower_ascii c = c.
Proof. by destruct c as [[] [] [] [] [] [] [] []]. Qed.

Lemma lower_normal (s : string) :
  all_chars is_handle_char s = true -> lower s = s.
Proof.
  induction s as [|c s IH]; simpl; [done|].
  intros [H1 H2]%andb_prop. by rewrite (handle_char_lower _ H1), IH.
Qed.

(** [rstrip] leaves alone a string that ends outside the class. *)
Lemma rstrip_class_all (cls : ascii -> bool) (s : string) :
  all_chars (fun c => negb (cls c)) s = true -> rstrip_class cls s = s.
Proof.
  induction s as [|c s IH]; simpl; [done|].
  intros [H1 H2]%andb_prop. rewrite (IH H2).
  destruct s; [|done]. by apply negb_true_iff in H1 as ->.
Qed.

Lemma rstrip_class_append (cls : ascii -> bool) (s t : string) :
  t <> "" -> rstrip_class cls t = t -> rstrip_class cls (s +:+ t) = s +:+ t.
Proof.
  intros Hne Ht. induction s as [|c s IH]; [done|].
  rewrite append_cons. simpl. rewrite IH.
  destruct (s +:+ t) eqn:E; [|done].
  by apply append_eq_nil in E as [_ ?].
Qed.

(** [split] on a string without the separator. *)
Lemma split_none (c : ascii) (s : string) :
  all_chars (fun x => negb (Ascii.eqb x c)) s = true -> split c s = [s].
Proof.
  induction s as [|x s IH]; simpl; [done|].
  intros [H1 H2]%andb_prop. apply negb_true_iff in H1 as ->.
  by rewrite (IH H2).
Qed.

Lemma split_not_nil (c : ascii) (s : string) : split c s <> [].
Proof.
  destruct s as [|x s]; simpl; [done|].
  destruct (Ascii.eqb x c); [done|]. by destruct (split c s).
Qed.

Lemma split_append (c : ascii) (s t : string) :
  split c (s +:+ String c t) = split c s ++ split c t.
Proof.
  induction s as [|x s IH].
  - rewrite append_nil_l. simpl. by rewrite Ascii.eqb_refl.
  - rewrite append_cons. simpl. rewrite IH.
    destruct (Ascii.eqb x c); [done|].
    pose proof (split_not_nil c s). by destruct (split c s).
Qed.

Lemma last_split_append (c : ascii) (s t : string) :
  all_chars (fun x => negb (Ascii.eqb x c)) t = true ->
  last (split c (s +:+ String c t)) = Some t.
Proof.
  intros Ht. rewrite split_append, (split_none _ _ Ht).
  by rewrite last_snoc.
Qed.

(** Replacing a character that does not occur. *)
Lemma replace_char_none (c : ascii) (new s : string) :
  all_chars (fun x => negb (Ascii.eqb x c)) s = true ->
  replace (String c "") new s = s.
Proof.
  unfold replace. induction s as [|x s IH]; simpl; [done|].
  intros [H1 H2]%andb_prop. apply negb_true_iff in H1.
  unfold startswith; simpl. rewrite Ascii.eqb_sym, H1. by rewrite (IH H2).
Qed.

Lemma handle_char_facts (c : ascii) :
  is_handle_char c = true ->
  Ascii.eqb c "/" = false /\ Ascii.eqb c "?" = false /\ Ascii.eqb c "@" = false
  /\ Ascii.eqb c " " = false /\ Ascii.eqb c "-" = false /\ Ascii.eqb c "." = false
  /\ is_tiktok_char c = true.
Proof. by destruct c as [[] [] [] [] [] [] [] []]. Qed.

Lemma normalized_no (x : ascii) (h : string) :
  x ∈ ["/"; "?"; "@"; " "; "-"; "."]%char ->
  all_chars is_handle_char h = true ->
  all_chars (fun c => negb (Ascii.eqb c x)) h = true.
Proof.
  intros Hx. apply all_chars_impl. intros c Hc.
  destruct (handle_char_facts c Hc) as (?&?&?&?&?&?&?).
  apply negb_true_iff.
  repeat (apply elem_of_cons in Hx as [->|Hx]; [done|]).
  by apply elem_of_nil in Hx.
Qed.

End string_lemmas.

(** * Handles: normalization, templating, extraction *)

Section handles.
Import PyStr Props.

Lemma given_normalized (h : string) :
  h <> "" -> create_rappers_final.given (Some h) = Some h.
Proof. by destruct h. Qed.

(** What the cleaning of [create_rappers_final.py] returns is a
    normalized handle. *)
Lemma clean_normalized (name : cell) (h : string) :
  create_rappers_final.clean_artist_name_for_handle name = Some h ->
  normalized h.
Proof.
  unfold create_rappers_final.clean_artist_name_for_handle.
  destruct name as [name|]; [|done].
  destruct (negb (truthy name)); [done|].
  set (k := keep is_handle_char _).
  destruct (truthy k) eqn:E; [|done].
  intros [= <-]. split; [by destruct k | apply all_chars_keep].
Qed.

(** The same for [enrich_dj_producers_social.py], whose cleaning may
    return the empty string, which its templaters then refuse. *)
Lemma clean_dj_normalized (name : cell) (h : string) :
  enrich_dj_producers_social.clean_artist_name_for_handle name = Some h ->
  h <> "" -> normalized h.
Proof.
  destruct name as [name|]; [|done]. simpl.
  intros [= <-] ?. split; [done | apply all_chars_keep].
Qed.

(** [extract_handle] on a URL that ends with a slash and a handle. *)
Lemma extract_handle_slash (base h platform : string) :
  normalized h ->
  all_chars (fun c => negb (Ascii.eqb c "?")) base = true ->
  enrich_musicbrainz.extract_handle (Some (base +:+ String "/" h)) platform
  = Some h.
Proof.
  intros [Hne Hh] Hb. unfold enrich_musicbrainz.extract_handle.
  assert (truthy (base +:+ String "/" h) = true) as ->.
  { destruct base; [by rewrite append_nil_l | by rewrite append_cons]. }
  simpl negb. cbv iota.
  unfold rstrip.
  rewrite (rstrip_class_append _ base (String "/" h)); [|done|].
  2:{ apply (rstrip_class_append _ (String "/" "") h Hne).
      apply rstrip_class_all. by apply (normalized_no "/"); [set_solver|]. }
  rewrite (split_none "?").
  2:{ clear Hne. induction base as [|c base IH].
      - rewrite append_nil_l. simpl.
        by apply (normalized_no "?"); [set_solver|].
      - rewrite append_cons. simpl in *.
        apply andb_prop in Hb as [-> Hb]. by apply IH. }
  simpl hd. rewrite last_split_append; [|by apply (normalized_no "/"); [set_solver|]].
  destruct h as [|c h]; [done|].
  simpl in Hh. apply andb_prop in Hh as [Hc _].
  destruct (handle_char_facts c Hc) as (_&_&Hat&_).
  destruct (Ascii.eqb_spec c "@"); [done|].
  by destruct c as [[] [] [] [] [] [] [] []].
Qed.

(** [extract_handle] on a URL that ends with a slash, an at sign and a
    handle. *)
Lemma extract_handle_at (base h platform : string) :
  normalized h ->
  all_chars (fun c => negb (Ascii.eqb c "?")) base = true ->
  enrich_musicbrainz.extract_handle (Some (base +:+ String "/" (String "@" h)))
    platform = Some h.
Proof.
  intros [Hne Hh] Hb. unfold enrich_musicbrainz.extract_handle.
  assert (truthy (base +:+ String "/" (String "@" h)) = true) as ->.
  { destruct base; [by rewrite append_nil_l | by rewrite append_cons]. }
  simpl negb. cbv iota.
  unfold rstrip.
  rewrite (rstrip_class_append _ base (String "/" (String "@" h))); [|done|].
  2:{ apply (rstrip_class_append _ (String "/" (String "@" "")) h Hne).
      apply rstrip_class_all. by apply (normalized_no "/"); [set_solver|]. }
  rewrite (split_none "?").
  2:{ clear Hne. induction base as [|c base IH].
      - rewrite append_nil_l. simpl.
        by apply (normalized_no "?"); [set_solver|].
      - rewrite append_cons. simpl in *.
        apply andb_prop in Hb as [-> Hb]. by apply IH. }
  simpl hd. rewrite last_split_append; [done|].
  simpl. by apply (normalized_no "/"); [set_solver|].
Qed.

End handles.

Section handle_theorems.
Import PyStr Props.

Lemma take_while_append (cls : ascii -> bool) (h : string) (c : ascii) (t : string) :
  all_chars cls h = true -> cls c = false ->
  take_while cls (h +:+ String c t) = h.
Proof.
  intros Hh Hc. induction h as [|x h IH].
  - rewrite append_nil_l. simpl. by rewrite Hc.
  - rewrite append_cons. simpl in *. apply andb_prop in Hh as [-> Hh].
    by rewrite IH.
Qed.

Lemma normalized_not_slash (h : string) :
  all_chars is_handle_char h = true ->
  all_chars fill_all_social_links.not_slash h = true.
Proof. intros. by apply (normalized_no "/"); [set_solver|]. Qed.

Lemma normalized_tiktok (h : string) :
  all_chars is_handle_char h = true -> all_chars is_tiktok_char h = true.
Proof.
  apply all_chars_impl. intros c Hc.
  by destruct (handle_char_facts c Hc) as (_&_&_&_&_&_&?).
Qed.

(** The regular expressions of [extract_handle_from_url] on the three
    URL shapes of the templaters. *)
Lemma from_url_instagram (h : string) :
  normalized h ->
  fill_all_social_links.extract_handle_from_url
    (Some ("https://www.instagram.com/" +:+ h)) "instagram" = Some h.
Proof.
  intros [Hne Hh]. rewrite !append_cons, append_nil_l. simpl.
  rewrite (take_while_all _ _ (normalized_not_slash _ Hh)).
  by destruct h.
Qed.

Lemma from_url_twitter (h : string) :
  normalized h ->
  fill_all_social_links.extract_handle_from_url
    (Some ("https://twitter.com/" +:+ h)) "twitter" = Some h.
Proof.
  intros [Hne Hh]. rewrite !append_cons, append_nil_l. simpl.
  rewrite (take_while_all _ _ (normalized_not_slash _ Hh)).
  by destruct h.
Qed.

Lemma from_url_tiktok (h : string) :
  normalized h ->
  fill_all_social_links.extract_handle_from_url
    (Some ("https://www.tiktok.com/@" +:+ h)) "tiktok" = Some h.
Proof.
  intros [Hne Hh]. rewrite !append_cons, append_nil_l. simpl.
  rewrite (take_while_all _ _ (normalized_tiktok _ Hh)).
  by destruct h.
Qed.

Lemma clean_name_normal (h : string) :
  all_chars is_handle_char h = true -> fill_all_social_links.clean_name h = h.
Proof.
  intros Hh. unfold fill_all_social_links.clean_name.
  rewrite (lower_normal _ Hh).
  rewrite (replace_char_none " "); [|by apply (normalized_no " "); [set_solver|]].
  rewrite (replace_char_none "-"); [|by apply (normalized_no "-"); [set_solver|]].
  by rewrite (replace_char_none "."); [|by apply (normalized_no "."); [set_solver|]].
Qed.

Lemma from_url_fill_instagram (h : string) :
  normalized h ->
  fill_all_social_links.extract_handle_from_url
    (Some (fill_all_social_links.construct_instagram_url h)) "instagram" = Some h.
Proof.
  intros [Hne Hh]. unfold fill_all_social_links.construct_instagram_url.
  rewrite (clean_name_normal _ Hh).
  rewrite !append_cons, append_nil_l. simpl.
  rewrite (take_while_append _ h "/" ""); [by destruct h | | done].
  by apply normalized_not_slash.
Qed.

Lemma from_url_fill_twitter (h : string) :
  normalized h ->
  fill_all_social_links.extract_handle_from_url
    (Some (fill_all_social_links.construct_twitter_url h)) "twitter" = Some h.
Proof.
  intros Hn. unfold fill_all_social_links.construct_twitter_url.
  rewrite (clean_name_normal _ (proj2 Hn)). by apply from_url_twitter.
Qed.

End handle_theorems.

Section handle_claims.
Import PyStr Props.

(** C6 (extraction round trip).  For every handle [h] that the name
    normalization of [create_rappers_final.py] produces, each templater
    builds a URL from which extraction gives [h] back: [extract_handle]
    for the six platforms, [extract_handle_from_url] for the three
    platforms it knows (instagram, twitter, tiktok), whether the handle
    comes from the name or is passed as the Instagram handle; and the two
    templaters of [fill_all_social_links.py] round-trip on [h] too. *)
Theorem C6_extraction_round_trip (name other : cell) (h : string) :
  create_rappers_final.clean_artist_name_for_handle name = Some h ->
  let ig := create_rappers_final.construct_instagram_url name in
  let tt := create_rappers_final.construct_tiktok_url name None in
  let tw := create_rappers_final.construct_twitter_url name None in
  let sc := create_rappers_final.construct_soundcloud_url name in
  let yt := create_rappers_final.construct_youtube_url name None in
  let fb := create_rappers_final.construct_facebook_url name in
  let tt' := create_rappers_final.construct_tiktok_url other (Some h) in
  let tw' := create_rappers_final.construct_twitter_url other (Some h) in
  (ig.2 = Some h
   /\ enrich_musicbrainz.extract_handle ig.1 "instagram" = Some h
   /\ fill_all_social_links.extract_handle_from_url ig.1 "instagram" = Some h)
  /\ (tt.2 = Some h
      /\ enrich_musicbrainz.extract_handle tt.1 "tiktok" = Some h
      /\ fill_all_social_links.extract_handle_from_url tt.1 "tiktok" = Some h)
  /\ (tw.2 = Some h
      /\ enrich_musicbrainz.extract_handle tw.1 "twitter" = Some h
      /\ fill_all_social_links.extract_handle_from_url tw.1 "twitter" = Some h)
  /\ (sc.2 = Some h
      /\ enrich_musicbrainz.extract_handle sc.1 "soundcloud" = Some h)
  /\ enrich_musicbrainz.extract_handle yt "youtube" = Some h
  /\ enrich_musicbrainz.extract_handle fb "facebook" = Some h
  /\ (tt'.2 = Some h
      /\ enrich_musicbrainz.extract_handle tt'.1 "tiktok" = Some h
      /\ fill_all_social_links.extract_handle_from_url tt'.1 "tiktok" = Some h)
  /\ (tw'.2 = Some h
      /\ enrich_musicbrainz.extract_handle tw'.1 "twitter" = Some h
      /\ fill_all_social_links.extract_handle_from_url tw'.1 "twitter" = Some h)
  /\ fill_all_social_links.extract_handle_from_url
       (Some (fill_all_social_links.construct_instagram_url h)) "instagram"
     = Some h
  /\ fill_all_social_links.extract_handle_from_url
       (Some (fill_all_social_links.construct_twitter_url h)) "twitter"
     = Some h.
Proof.
  intros Hclean. pose proof (clean_normalized _ _ Hclean) as Hn.
  pose proof (given_normalized h (proj1 Hn)) as Hg.
  unfold create_rappers_final.construct_instagram_url,
    create_rappers_final.construct_tiktok_url,
    create_rappers_final.construct_twitter_url,
    create_rappers_final.construct_soundcloud_url,
    create_rappers_final.construct_youtube_url,
    create_rappers_final.construct_facebook_url.
  rewrite Hclean, Hg. cbn [create_rappers_final.given fst snd].
  split_and!.
  - reflexivity.
  - exact (extract_handle_slash "https://www.instagram.com" h _ Hn eq_refl).
  - exact (from_url_instagram h Hn).
  - reflexivity.
  - exact (extract_handle_at "https://www.tiktok.com" h _ Hn eq_refl).
  - exact (from_url_tiktok h Hn).
  - reflexivity.
  - exact (extract_handle_slash "https://twitter.com" h _ Hn eq_refl).
  - exact (from_url_twitter h Hn).
  - reflexivity.
  - exact (extract_handle_slash "https://soundcloud.com" h _ Hn eq_refl).
  - exact (extract_handle_at "https://www.youtube.com" h _ Hn eq_refl).
  - exact (extract_handle_slash "https://www.facebook.com" h _ Hn eq_refl).
  - reflexivity.
  - exact (extract_handle_at "https://www.tiktok.com" h _ Hn eq_refl).
  - exact (from_url_tiktok h Hn).
  - reflexivity.
  - exact (extract_handle_slash "https://twitter.com" h _ Hn eq_refl).
  - exact (from_url_twitter h Hn).
  - exact (from_url_fill_instagram h Hn).
  - exact (from_url_fill_twitter h Hn).
Qed.

(** A witness of C6: Lil Wayne, whose handle is wayne. *)
Lemma C6_extraction_round_trip_witness :
  create_rappers_final.clean_artist_name_for_handle (Some "Lil Wayne")
  = Some "wayne"
  /\ enrich_musicbrainz.extract_handle
       (create_rappers_final.construct_tiktok_url (Some "Lil Wayne") None).1
       "tiktok" = Some "wayne".
Proof.
  split; [reflexivity|].
  apply (C6_extraction_round_trip (Some "Lil Wayne") None "wayne").
  reflexivity.
Defined.

(** The round trip for the templaters of [enrich_dj_producers_social.py]. *)
Lemma dj_round_trip (name : cell) (h : string) :
  enrich_dj_producers_social.clean_artist_name_for_handle name = Some h ->
  h <> "" ->
  let ig := enrich_dj_producers_social.construct_instagram_url name in
  let tt := enrich_dj_producers_social.construct_tiktok_url name None in
  ig.2 = Some h
  /\ enrich_musicbrainz.extract_handle ig.1 "instagram" = Some h
  /\ fill_all_social_links.extract_handle_from_url ig.1 "instagram" = Some h
  /\ tt.2 = Some h
  /\ enrich_musicbrainz.extract_handle tt.1 "tiktok" = Some h
  /\ fill_all_social_links.extract_handle_from_url tt.1 "tiktok" = Some h.
Proof.
  intros Hclean Hne. pose proof (clean_dj_normalized _ _ Hclean Hne) as Hn.
  pose proof (given_normalized h Hne) as Hg.
  unfold enrich_dj_producers_social.construct_instagram_url,
    enrich_dj_producers_social.construct_tiktok_url,
    enrich_dj_producers_social.given.
  rewrite Hclean, Hg. cbn [create_rappers_final.given fst snd].
  split_and!.
  - reflexivity.
  - exact (extract_handle_slash "https://www.instagram.com" h _ Hn eq_refl).
  - exact (from_url_instagram h Hn).
  - reflexivity.
  - exact (extract_handle_at "https://www.tiktok.com" h _ Hn eq_refl).
  - exact (from_url_tiktok h Hn).
Qed.

(** C7 (handle extraction contract).  The source at two URLs: the slash
    before the query string is not stripped, and the handle that comes
    out is the empty string, not the last path segment and not [None]. *)
Theorem C7_extract_handle_empty :
  enrich_musicbrainz.extract_handle
    (Some "https://www.instagram.com/champagnepapi/?hl=en") "instagram"
  = Some ""
  /\ enrich_musicbrainz.extract_handle (Some "/") "instagram" = Some ""
  /\ enrich_musicbrainz.extract_handle
       (Some "https://www.instagram.com/champagnepapi/") "instagram"
     = Some "champagnepapi"
  /\ enrich_musicbrainz.extract_handle
       (Some "https://www.instagram.com/champagnepapi?hl=en") "instagram"
     = Some "champagnepapi".
Proof. repeat split; reflexivity. Qed.

(** C9 (prefix stripping).  With the DJ prefix of
    [enrich_dj_producers_social.py], the handle guessed for DJ Khaled is
    khaled and not djkhaled; in general the name is put in lower case,
    the prefix and the white space after it go, and only [[a-z0-9_]]
    stays.  The same holds for the prefixes of [create_rappers_final.py],
    which gives no handle when nothing stays. *)
Theorem C9_prefix_stripping :
  enrich_dj_producers_social.clean_artist_name_for_handle (Some "DJ Khaled")
  = Some "khaled"
  /\ enrich_dj_producers_social.clean_artist_name_for_handle (Some "DJ Khaled")
     <> Some "djkhaled"
  /\ (forall rest,
        enrich_dj_producers_social.clean_artist_name_for_handle
          (Some ("DJ " +:+ rest))
        = Some (keep is_handle_char (lower rest)))
  /\ (forall name,
        all_chars is_handle_char
          (default "" (enrich_dj_producers_social.clean_artist_name_for_handle name))
        = true)
  /\ (forall rest,
        create_rappers_final.clean_artist_name_for_handle (Some ("Lil " +:+ rest))
        = create_rappers_final.given (Some (keep is_handle_char (lower rest)))
        /\ create_rappers_final.clean_artist_name_for_handle
             (Some ("Young " +:+ rest))
           = create_rappers_final.given (Some (keep is_handle_char (lower rest)))
        /\ create_rappers_final.clean_artist_name_for_handle (Some ("Big " +:+ rest))
           = create_rappers_final.given (Some (keep is_handle_char (lower rest)))
        /\ create_rappers_final.clean_artist_name_for_handle (Some ("The " +:+ rest))
           = create_rappers_final.given (Some (keep is_handle_char (lower rest))))
  /\ (forall name,
        all_chars is_handle_char
          (default "" (create_rappers_final.clean_artist_name_for_handle name))
        = true).
Proof.
  split; [reflexivity|]. split; [discriminate|].
  split; [|split; [|split]].
  - intros rest. unfold enrich_dj_producers_social.clean_artist_name_for_handle.
    rewrite !append_cons, append_nil_l. simpl. by rewrite keep_drop_space.
  - intros [name|]; simpl; [apply all_chars_keep | done].
  - intros rest. unfold create_rappers_final.clean_artist_name_for_handle.
    rewrite !append_cons, !append_nil_l. simpl.
    rewrite keep_drop_space. unfold create_rappers_final.given.
    by destruct (truthy _).
  - intros [name|]; [|done].
    unfold create_rappers_final.clean_artist_name_for_handle.
    destruct (negb (truthy name)); [done|].
    destruct (truthy _); simpl; [apply all_chars_keep | done].
Qed.

End handle_claims.

(** * The Spotify clients: selection of a candidate, rate limit *)

Section spotify.
Import PyStr Props.






Lemma is_429_inv (r : response) :
  is_429 r = true -> exists ra items, r = Reply 429 ra items.
Proof.
  destruct r as [|status ra items]; [done|]. simpl.
  intros ->%Z.eqb_eq. by exists ra, items.
Qed.

Lemma search_artist_answer (name : string) (r : response) (rest : list response) :
  is_429 r = false ->
  enrich_remaining.search_artist name (r :: rest)
  = Some (answer_remaining name r, [], rest).
Proof.
  destruct r as [|status ra items]; [done|]. simpl. intros ->.
  by destruct (is_error_status status).
Qed.

Lemma search_answer (name : string) (r : response) (rest : list response) :
  is_429 r = false ->
  dj_chunk_runner.search name (r :: rest) = Some (answer_chunk name r, [], rest).
Proof.
  destruct r as [|status ra items]; [done|]. simpl. intros ->.
  by destruct (is_error_status status).
Qed.

(** A script of rate limits only leaves both clients waiting. *)
Lemma search_waits (name : string) (script : list response) :
  Forall (fun w => is_429 w = true) script ->
  enrich_remaining.search_artist name script = None
  /\ dj_chunk_runner.search name script = None.
Proof.
  induction 1 as [|w script Hw _ [IH1 IH2]]; [done|].
  destruct (is_429_inv _ Hw) as (ra & items & ->). simpl.
  by rewrite IH1, IH2.
Qed.

(** C2, as amended (rate limit).  On a 429 a client pauses for the
    [Retry-After] seconds of the response (30 seconds in
    [enrich_remaining.py], 3 in [dj_chunk_runner.py] when the header is
    absent) and repeats the call; it does so after every 429, however
    many come in a row.  The result is what the first response that is
    not a 429 gives, and the pauses are those of the 429s before it, one
    each, in order. *)
Theorem C2_rate_limit_retries (name : string) (waits : list response)
    (r : response) (rest : list response) :
  Forall (fun w => is_429 w = true) waits ->
  is_429 r = false ->
  enrich_remaining.search_artist name (waits ++ r :: rest)
  = Some (answer_remaining name r, pause_of 30 <$> waits, rest)
  /\ dj_chunk_runner.search name (waits ++ r :: rest)
     = Some (answer_chunk name r, pause_of 3 <$> waits, rest).
Proof.
  intros Hw Hr. induction Hw as [|w waits Hw _ [IH1 IH2]].
  - split; [by apply search_artist_answer | by apply search_answer].
  - destruct (is_429_inv _ Hw) as (ra & items & ->).
    rewrite <- app_comm_cons. simpl. by rewrite IH1, IH2.
Qed.

(** A witness of C2: one 429 with [Retry-After: 3], then a good
    response: one pause of three seconds, one retry. *)
Lemma C2_rate_limit_retries_witness :
  enrich_remaining.search_artist "Drake" [Scenario.limited; Scenario.found]
  = Some (Return (Some Scenario.drake_named), [3%nat], []).
Proof.
  refine (proj1 (C2_rate_limit_retries "Drake" [Scenario.limited]
                   Scenario.found [] _ _)).
  - repeat constructor.
  - reflexivity.
Defined.

(** C2, as stated, fails: after two 429s in a row the clients call a
    third time, and the record gets the artist of the third response,
    not the empty result with the third response left unread. *)
Lemma C2_counterexample :
  enrich_remaining.search_artist "Drake"
    [Scenario.limited; Scenario.limited; Scenario.found]
  = Some (Return (Some Scenario.drake_named), [3%nat; 3%nat], [])
  /\ enrich_remaining.search_artist "Drake"
       [Scenario.limited; Scenario.limited; Scenario.found]
     <> Some (Return None, [3%nat], [Scenario.found])
  /\ dj_chunk_runner.search "Drake"
       [Scenario.limited; Scenario.limited; Scenario.found]
     = Some (Some Scenario.drake_named, [3%nat; 3%nat], [])
  /\ dj_chunk_runner.search "Drake"
       [Scenario.limited; Scenario.limited; Scenario.found]
     <> Some (None, [3%nat], [Scenario.found]).
Proof.
  assert (enrich_remaining.search_artist "Drake"
            [Scenario.limited; Scenario.limited; Scenario.found]
          = Some (Return (Some Scenario.drake_named), [3%nat; 3%nat], [])) as E1
    by (vm_compute; reflexivity).
  assert (dj_chunk_runner.search "Drake"
            [Scenario.limited; Scenario.limited; Scenario.found]
          = Some (Some Scenario.drake_named, [3%nat; 3%nat], [])) as E2
    by (vm_compute; reflexivity).
  rewrite E1, E2. split_and!; congruence.
Qed.

End spotify.

(** * MusicBrainz lookups of [social_links_pipeline.py] *)

Section musicbrainz.
Import PyStr Props social_links_pipeline.




(** The cache only grows. *)
Lemma get_all_social_links_cache (srv : server) (a name : string) (st : state) :
  is_Some (mb_id_cache st !! name) ->
  is_Some (mb_id_cache (get_all_social_links srv a st).2 !! name).
Proof.
  intros Hc. unfold get_all_social_links, resolve.
  destruct (mb_id_cache st !! a) as [id|] eqn:Ha.
  - by destruct (lookup_reply srv id).
  - destruct (search_reply srv a) as [|[|first rest]]; [done..|].
    destruct (_ <? _)%Z; [done|].
    destruct (mb_id first) as [id|]; [|done].
    assert (is_Some (<[a:=id]> (mb_id_cache st) !! name)) as Hc'.
    { destruct (decide (a = name)) as [->|Hne];
        [rewrite lookup_insert_eq | rewrite lookup_insert_ne]; eauto. }
    destruct (lookup_reply srv id); [done|].
    by destruct (bool_decide _).
Qed.

Lemma calls_cache (srv : server) (calls : list string) (name : string) (st : state) :
  is_Some (mb_id_cache st !! name) ->
  is_Some (mb_id_cache
             (foldl (fun st a => (get_all_social_links srv a st).2) st calls)
           !! name).
Proof.
  revert st. induction calls as [|a calls IH]; intros st Hc; [done|].
  simpl. apply IH. by apply get_all_social_links_cache.
Qed.

Lemma cache_hit_none (srv : server) (name : string) (st : state) :
  is_Some (mb_id_cache st !! name) ->
  get_all_social_links srv name st = (None, st).
Proof.
  intros [id Hid]. unfold get_all_social_links, resolve. rewrite Hid.
  by destruct (lookup_reply srv id).
Qed.

(** C10 (cache hits never enrich).  For a name that is in the cache of
    identifiers, the first half of [get_all_social_links] leaves the
    local variable [data] without a value, so the function returns
    [None] whatever the service answers, and the row of the artist holds
    his name only.  Names stay in the cache, so this is so for every name
    of the cache file loaded at the start, after any number of other
    lookups. *)
Theorem C10_cache_hit_returns_none (srv : server) (name : string) (st : state) :
  is_Some (mb_id_cache st !! name) ->
  (exists id, resolve srv name st = Found id None st)
  /\ get_all_social_links srv name st = (None, st)
  /\ process_artist srv name st = ({["Artist" := Some name]}, st)
  /\ (forall calls,
        (get_all_social_links srv name
           (foldl (fun st a => (get_all_social_links srv a st).2) st calls)).1
        = None).
Proof.
  intros Hc. split_and!.
  - destruct Hc as [id Hid]. exists id. unfold resolve. by rewrite Hid.
  - by apply cache_hit_none.
  - unfold process_artist. by rewrite (cache_hit_none _ _ _ Hc).
  - intros calls. by rewrite (cache_hit_none _ _ _ (calls_cache _ calls _ _ Hc)).
Qed.

(** A witness of C10: Drake is in the cache file found at the start, and
    MusicBrainz would list his Instagram profile. *)
Lemma C10_cache_hit_returns_none_witness :
  is_Some (mb_id_cache Scenario.cached !! "Drake")
  /\ get_all_social_links Scenario.musicbrainz "Drake" Scenario.cached
     = (None, Scenario.cached).
Proof.
  assert (is_Some (mb_id_cache Scenario.cached !! "Drake")) as H
    by (vm_compute; eauto).
  split; [exact H|].
  apply (C10_cache_hit_returns_none Scenario.musicbrainz "Drake" Scenario.cached H).
Defined.

End musicbrainz.

(** * The chunk runners: one row per record *)

Section chunk_runners.
Import PyStr Props.

Lemma status_of_sources (sp so : bool) :
  enrich_dj_parallel.status_of
    ((if sp then ["spotify"] else []) ++ (if so then ["soundcloud"] else []))
  = status_for sp so.
Proof. by destruct sp, so. Qed.

Lemma enrich_artist_status (name : string) (uuid : cell)
    (sp : outcome (option item)) (sc : outcome (option (string * string))) :
  enrich_dj_parallel.enrich_artist name uuid sp sc !! "lookup_status"
  = Some (Some (status_for (spotify_gives sp) (soundcloud_gives sc))).
Proof.
  unfold enrich_dj_parallel.enrich_artist, spotify_gives, soundcloud_gives.
  destruct sp as [[result|]|e];
    [destruct (enrich_remaining.nonempty result)|..];
    (destruct sc as [[[url handle]|]|e']; cbv beta iota zeta;
     rewrite lookup_insert_eq; reflexivity).
Qed.

Lemma process_row_status (input : gmap string cell) (rp : dj_chunk_runner.replies) :
  dj_chunk_runner.process_row input rp !! "lookup_status"
  = Some (Some (status_for
                  (spotify_gives (Return (dj_chunk_runner.spotify_reply rp)))
                  (soundcloud_gives (Return (dj_chunk_runner.soundcloud_reply rp))))).
Proof.
  unfold dj_chunk_runner.process_row, spotify_gives, soundcloud_gives.
  destruct rp as [[res|] [[url handle]|]];
    cbv beta iota zeta
      delta [dj_chunk_runner.spotify_reply dj_chunk_runner.soundcloud_reply];
    try destruct (enrich_remaining.nonempty res);
    cbv beta iota zeta; rewrite lookup_insert_eq; reflexivity.
Qed.

(** C8 (single record, lookup status).  For the input Drake, with
    Spotify giving the artist of identifier 3TVXtAsR1Inumwj472S9r4 and
    SoundCloud giving nothing, the row of [enrich_artist] has that
    [spotify_id], the status spotify, the name, and [None] in every
    other column; [process] of [dj_chunk_runner.py] writes that one row.
    In general the status lists the providers that contributed, and it
    is no_results when none did. *)
Theorem C8_single_record_scenario :
  Scenario.drake_row !! "spotify_id" = Some (Some "3TVXtAsR1Inumwj472S9r4")
  /\ Scenario.drake_row !! "lookup_status" = Some (Some "spotify")
  /\ Scenario.drake_row !! "artist_name" = Some (Some "Drake")
  /\ (forall col, col ∈ enrich_dj_parallel.COLUMNS ->
        col <> "spotify_id" -> col <> "lookup_status" -> col <> "artist_name" ->
        Scenario.drake_row !! col = Some None)
  /\ Scenario.drake_rows = [Scenario.drake_row]
  /\ (forall name uuid sp sc,
        enrich_dj_parallel.enrich_artist name uuid sp sc !! "lookup_status"
        = Some (Some (status_for (spotify_gives sp) (soundcloud_gives sc))))
  /\ (forall name uuid sp sc,
        spotify_gives sp = false -> soundcloud_gives sc = false ->
        enrich_dj_parallel.enrich_artist name uuid sp sc !! "lookup_status"
        = Some (Some "no_results"))
  /\ (forall input rp,
        dj_chunk_runner.spotify_reply rp = None ->
        dj_chunk_runner.soundcloud_reply rp = None ->
        dj_chunk_runner.process_row input rp !! "lookup_status"
        = Some (Some "no_results")).
Proof.
  split_and!.
  - evaluate.
  - evaluate.
  - evaluate.
  - intros col Hin H1 H2 H3.
    unfold enrich_dj_parallel.COLUMNS, enrich_remaining.expected_columns in Hin.
    repeat (apply elem_of_cons in Hin as [->|Hin];
            [first [done | evaluate]|]).
    by apply elem_of_nil in Hin.
  - evaluate.
  - apply enrich_artist_status.
  - intros name uuid sp sc Hsp Hsc.
    by rewrite enrich_artist_status, Hsp, Hsc.
  - intros input rp Hsp Hsc. rewrite process_row_status, Hsp, Hsc. done.
Qed.

(** A witness of C8: both providers give nothing. *)
Lemma C8_single_record_scenario_witness :
  enrich_dj_parallel.enrich_artist "Nobody" None (Return None) (Raise "timeout")
    !! "lookup_status" = Some (Some "no_results").
Proof.
  destruct C8_single_record_scenario as (_ & _ & _ & _ & _ & _ & Hnone & _).
  apply (Hnone "Nobody" None (Return None) (Raise "timeout")); reflexivity.
Defined.

End chunk_runners.

(** * [enrich_remaining.py]: the merge never overwrites *)

Section never_overwrite.
Import PyStr Props enrich_remaining.







Lemma tag_status_lookup (sources : list string) (row : gmap string cell)
    (col : string) :
  col <> "lookup_status" -> tag_status sources row !! col = row !! col.
Proof.
  intros Hne. unfold tag_status. destruct sources; [done|].
  destruct (bool_decide _); by rewrite lookup_insert_ne.
Qed.




Lemma run_pipeline_inv (youtube : bool) (net : nat -> replies)
    (df df1 : dataframe) :
  run_pipeline youtube net df = Return df1 ->
  columns df1 = columns df
  /\ rows df1 = run_from START_INDEX youtube net (rows df)
  /\ List.find (fun col => negb (bool_decide (col ∈ columns df)))
               expected_columns = None.
Proof.
  unfold run_pipeline.
  destruct (List.find _ _) eqn:E; [done|]. by intros [= <-].
Qed.




End never_overwrite.

(** * [social_links_pipeline.py]: the checkpoint file *)

Section checkpoint.
Import PyStr Props social_links_pipeline.

(** Which files a lookup, a row, a turn of the loop write. *)
Lemma get_all_social_links_disk (srv : server) (a : string) (st : state)
    (k : string) :
  k <> MB_CACHE_FILE ->
  disk (get_all_social_links srv a st).2 !! k = disk st !! k.
Proof.
  intros Hk. unfold get_all_social_links, resolve.
  destruct (mb_id_cache st !! a) as [id|].
  - by destruct (lookup_reply srv id).
  - destruct (search_reply srv a) as [|[|first rest]]; [done..|].
    destruct (_ <? _)%Z; [done|].
    destruct (mb_id first) as [id|]; [|done].
    destruct (lookup_reply srv id); simpl; by rewrite lookup_insert_ne.
Qed.

Lemma process_artist_disk (srv : server) (a : string) (st : state) (k : string) :
  k <> MB_CACHE_FILE ->
  disk (process_artist srv a st).2 !! k = disk st !! k.
Proof.
  intros Hk. unfold process_artist.
  pose proof (get_all_social_links_disk srv a st k Hk) as H.
  destruct (get_all_social_links srv a st) as [[l|] st']; simpl in *;
    [destruct (bool_decide _)|]; done.
Qed.

Lemma collect_disk (srv : server) (ckpt : string)
    (acc : list (gmap string cell) * state) (job : nat * string) (k : string) :
  k <> MB_CACHE_FILE -> k <> ckpt ->
  disk (collect srv ckpt acc job).2 !! k = disk acc.2 !! k.
Proof.
  intros Hk Hc. destruct acc as [results st], job as [idx artist].
  unfold collect.
  pose proof (process_artist_disk srv artist st k Hk) as H.
  destruct (process_artist srv artist st) as [row st']; simpl in H.
  destruct (_ =? _)%nat; simpl; [by rewrite lookup_insert_ne|done].
Qed.

Lemma loop_disk (srv : server) (ckpt : string) (js : list (nat * string))
    (acc : list (gmap string cell) * state) (k : string) :
  k <> MB_CACHE_FILE -> k <> ckpt ->
  disk (foldl (collect srv ckpt) acc js).2 !! k = disk acc.2 !! k.
Proof.
  intros Hk Hc. revert acc. induction js as [|j js IH]; intros acc; [done|].
  simpl. rewrite IH. by apply collect_disk.
Qed.

Lemma prepare_inv (file_path : string) (st : state) (p : plan) :
  prepare file_path st = Return p ->
  CHECKPOINT_CSV p = checkpoint_of file_path
  /\ exists sheets, disk st !! file_path = Some (Workbook sheets).
Proof.
  unfold prepare.
  destruct (disk st !! file_path) as [[| |sheets]|]; [done..| |done].
  destruct (sheets !! "Sheet1") as [df|]; [|done].
  destruct (find_artist_col _); [|done].
  destruct (load_checkpoint _ _) as [[processed results]|]; [|done].
  intros [= <-]. split; [done | by exists sheets].
Qed.


(** A turn writes the cache file, its checkpoint file and its workbook,
    and nothing else. *)
Lemma process_file_frame (srv : server) (sched : list string -> list string)
    (st st' : state) (file_path k : string) :
  process_file srv sched st file_path = Return st' ->
  k <> MB_CACHE_FILE -> k <> checkpoint_of file_path -> k <> file_path ->
  disk st' !! k = disk st !! k.
Proof.
  unfold process_file. destruct (prepare file_path st) as [p|] eqn:Hp; [|done].
  intros [= <-] Hcache Hck Hfp.
  destruct (prepare_inv _ _ _ Hp) as (Hname & _).
  pose proof (loop_disk srv (CHECKPOINT_CSV p) (jobs (sched (artists p)))
                (results0 p, st) k Hcache) as Hloop.
  destruct (foldl _ _ _) as [results st2]. simpl in Hloop.
  rewrite Hname in Hloop. rewrite <- (Hloop Hck).
  unfold finish. rewrite Hname. simpl.
  destruct (_ !! file_path) as [[| |sheets]|]; simpl;
    rewrite ?(lookup_insert_ne _ file_path) by done;
    by rewrite lookup_insert_ne.
Qed.





End checkpoint.

(** * [social_links_pipeline.py]: resuming *)

Section resume.
Import PyStr Props social_links_pipeline.

Lemma load_checkpoint_processed (d : gmap string file) (ckpt : string)
    (t : table) (c : string)
    (processed : gset string) (results : list (gmap string cell)) :
  d !! ckpt = Some (CsvFile t) ->
  List.find (fun c => contains "artist" (lower c)) (header t) = Some c ->
  load_checkpoint d ckpt = Return (processed, results) ->
  processed = list_to_set (str <$> column t c) /\ results = records t.
Proof.
  unfold load_checkpoint. intros -> ->. by intros [= <- <-].
Qed.

(** The records of the loaded checkpoint are not submitted again: no
    artist of the plan has his name in the artist column of the
    checkpoint, and the rows of the checkpoint open the results. *)
Lemma resume_skips_checkpoint (file_path : string) (st : state) (p : plan)
    (t : table) (c : string) :
  prepare file_path st = Return p ->
  disk st !! checkpoint_of file_path = Some (CsvFile t) ->
  List.find (fun c => contains "artist" (lower c)) (header t) = Some c ->
  results0 p = records t
  /\ forall a, a ∈ artists p -> a ∉ str <$> column t c.
Proof.
  unfold prepare. fold (checkpoint_of file_path).
  destruct (disk st !! file_path) as [[| |sheets]|]; [done..| |done].
  destruct (sheets !! "Sheet1") as [df|]; [|done].
  destruct (find_artist_col _) as [col|]; [|done].
  destruct (load_checkpoint _ _) as [[processed results]|] eqn:Hl; [|done].
  intros [= <-] Hd Hc.
  destruct (load_checkpoint_processed _ _ _ _ _ _ Hd Hc Hl) as [-> ->].
  split; [done|]. simpl. intros a Ha.
  apply list_elem_of_In, filter_In in Ha as [_ Ha].
  apply negb_true_iff, bool_decide_eq_false in Ha.
  by rewrite elem_of_list_to_set in Ha.
Qed.

(** C3 (resume equivalence), the source at a failing input.  The three
    workbooks hold Drake, Adele and Tiesto.  The run is stopped in the
    turn of the second workbook, after the lookup of Adele and before
    any table of that turn is written: the disk then has the checkpoint
    of the first workbook, no checkpoint for the second, and the cache
    file with the identifiers of Drake and Adele.  The run started again
    from that disk skips Drake, who is in the loaded checkpoint; it finds
    Adele in the cache, so that her lookup returns [None], and the final
    table of the second workbook has her name only, where the run that
    was not stopped has her Instagram link.  Stopped in the turn of the
    first workbook the same happens to Drake. *)
Theorem C3_resume_diverges :
  main_killed 1 1 Scenario.musicbrainz Scenario.in_order Scenario.workbooks
  = Return Scenario.interrupted
  /\ Scenario.interrupted !! checkpoint_of Scenario.rappers
     = Some (CsvFile
               (Scenario.final_table
                  [Scenario.line "Drake"
                     (Some ("https://www.instagram.com/champagnepapi/",
                            "champagnepapi"))]))
  /\ Scenario.interrupted !! checkpoint_of Scenario.singers = None
  /\ Scenario.interrupted !! MB_CACHE_FILE
     = Some (JsonFile {[ "Drake" := "9fff2f8a-21e6-47de-a2b8-7f449929d43f";
                         "Adele" := "cc2c9c3c-b7bc-4b8b-84d8-4fbd8779e493" ]})
  /\ main Scenario.musicbrainz Scenario.in_order Scenario.interrupted
     = Return Scenario.resumed
  /\ main Scenario.musicbrainz Scenario.in_order Scenario.workbooks
     = Return Scenario.uninterrupted
  /\ social_links Scenario.resumed Scenario.rappers
     = social_links Scenario.uninterrupted Scenario.rappers
  /\ social_links Scenario.uninterrupted Scenario.singers
     = Some (Scenario.final_table
               [Scenario.line "Adele"
                  (Some ("https://www.instagram.com/adele/", "adele"))])
  /\ social_links Scenario.resumed Scenario.singers
     = Some (Scenario.final_table [Scenario.line "Adele" None])
  /\ ~ (exists t t',
          social_links Scenario.uninterrupted Scenario.singers = Some t
          /\ social_links Scenario.resumed Scenario.singers = Some t'
          /\ body t ≡ₚ body t')
  /\ social_links Scenario.uninterrupted Scenario.rappers
     = Some (Scenario.final_table
               [Scenario.line "Drake"
                  (Some ("https://www.instagram.com/champagnepapi/",
                         "champagnepapi"))])
  /\ social_links Scenario.resumed_early Scenario.rappers
     = Some (Scenario.final_table [Scenario.line "Drake" None]).
Proof.
  assert (social_links Scenario.uninterrupted Scenario.singers
          = Some (Scenario.final_table
                    [Scenario.line "Adele"
                       (Some ("https://www.instagram.com/adele/", "adele"))]))
    as Hfull by evaluate.
  assert (social_links Scenario.resumed Scenario.singers
          = Some (Scenario.final_table [Scenario.line "Adele" None]))
    as Hres by evaluate.
  split_and!.
  - evaluate.
  - evaluate.
  - evaluate.
  - evaluate.
  - evaluate.
  - evaluate.
  - evaluate.
  - exact Hfull.
  - exact Hres.
  - intros (t & t' & H1 & H2 & Hperm).
    rewrite Hfull in H1. rewrite Hres in H2.
    injection H1 as <-. injection H2 as <-.
    apply Permutation_singleton_l in Hperm. discriminate Hperm.
  - evaluate.
  - evaluate.
Qed.

End resume.

(** * Further properties of the handle functions *)

Section more_handles.
Import PyStr Props.

Lemma all_chars_and (p q : ascii -> bool) (s : string) :
  all_chars (fun c => p c && q c) s = all_chars p s && all_chars q s.
Proof.
  induction s as [|c s IH]; simpl; [done|]. rewrite IH.
  destruct (p c), (q c), (all_chars p s), (all_chars q s); done.
Qed.

(** The pieces of a split hold no separator, and keep what holds of all
    the characters of the string. *)
Lemma split_pieces (c : ascii) (p : ascii -> bool) (s x : string) :
  all_chars p s = true -> x ∈ split c s ->
  all_chars (fun y => p y && negb (Ascii.eqb y c)) x = true.
Proof.
  revert x. induction s as [|y s IH]; intros x Hs Hx; simpl in *.
  - by apply list_elem_of_singleton in Hx as ->.
  - apply andb_prop in Hs as [Hy Hs].
    destruct (Ascii.eqb y c) eqn:E.
    + apply elem_of_cons in Hx as [->|Hx]; [done|]. by apply IH.
    + pose proof (split_not_nil c s) as Hne.
      destruct (split c s) as [|h t]; [done|].
      apply elem_of_cons in Hx as [->|Hx].
      * simpl. rewrite Hy, E. simpl. apply IH; [done|]. by left.
      * apply IH; [done|]. by right.
Qed.

Lemma hd_split_in (c : ascii) (s : string) : hd "" (split c s) ∈ split c s.
Proof.
  pose proof (split_not_nil c s). destruct (split c s); [done|]. by left.
Qed.

Lemma last_split (c : ascii) (s : string) :
  exists x, last (split c s) = Some x /\ x ∈ split c s.
Proof.
  pose proof (split_not_nil c s) as Hne.
  destruct (last (split c s)) as [x|] eqn:E.
  - exists x. split; [done|]. apply last_Some in E as [l' ->]. set_solver.
  - by apply last_None in E.
Qed.

Lemma all_chars_true (s : string) : all_chars (fun _ => true) s = true.
Proof. induction s; simpl; done. Qed.

(** X1.  [extract_handle] returns [None] exactly on [None] and on the
    empty string: every other input, well formed or not, gives a
    string. *)
Theorem X1_extract_handle_none (url : cell) (platform : string) :
  enrich_musicbrainz.extract_handle url platform = None
  <-> url = None \/ url = Some "".
Proof.
  split; [|by intros [->| ->]].
  destruct url as [[|c s]|]; [by right| |by left].
  unfold enrich_musicbrainz.extract_handle. cbn [truthy negb].
  destruct (last_split "/" (hd "" (split "?" (rstrip "/" (String c s)))))
    as (x & -> & _).
  by destruct x as [|[[] [] [] [] [] [] [] []] x].
Qed.

(** X2.  A handle that [extract_handle] returns holds no slash and no
    question mark. *)
Theorem X2_extract_handle_clean (url : cell) (platform h : string) :
  enrich_musicbrainz.extract_handle url platform = Some h ->
  all_chars (fun c => negb (Ascii.eqb c "/") && negb (Ascii.eqb c "?")) h = true.
Proof.
  destruct url as [[|c s]|]; [done| |done].
  unfold enrich_musicbrainz.extract_handle. cbn [truthy negb].
  set (clean := hd "" (split "?" (rstrip "/" (String c s)))).
  assert (all_chars (fun y => negb (Ascii.eqb y "?")) clean = true) as Hq.
  { pose proof (split_pieces "?" (fun _ => true) _ _
                  (all_chars_true _) (hd_split_in "?" (rstrip "/" (String c s))))
      as H. by rewrite all_chars_and in H; apply andb_prop in H as [_ H]. }
  destruct (last_split "/" clean) as (x & Hx & Hin). rewrite Hx.
  pose proof (split_pieces "/" _ _ _ Hq Hin) as H.
  assert (all_chars (fun c => negb (Ascii.eqb c "/") && negb (Ascii.eqb c "?")) x
          = true) as Hx'.
  { rewrite all_chars_and in *. apply andb_prop in H as [-> ->]. done. }
  destruct x as [|a x]; [by intros [= <-]|].
  simpl in Hx'. apply andb_prop in Hx' as [Ha Hx'].
  destruct (Ascii.eqb_spec a "@") as [->|Hne].
  - by intros [= <-].
  - assert (match a with
            | "@"%char => Some x
            | _ => Some (String a x)
            end = Some (String a x)) as ->.
    { by destruct a as [[] [] [] [] [] [] [] []]. }
    intros [= <-]. simpl. by rewrite Ha, Hx'.
Qed.

(** A witness of X2. *)
Lemma X2_extract_handle_clean_witness :
  all_chars (fun c => negb (Ascii.eqb c "/") && negb (Ascii.eqb c "?")) "drake"
  = true.
Proof.
  apply (X2_extract_handle_clean
           (Some "https://www.tiktok.com/@drake?lang=en") "tiktok" "drake").
  reflexivity.
Defined.

Lemma strip_prefix_chars (p : ascii -> bool) (a s t : string) :
  strip_prefix a s = Some t -> all_chars p s = true -> all_chars p t = true.
Proof.
  revert s. induction a as [|x a IH]; intros s; simpl.
  - by intros [= <-].
  - destruct s as [|y s]; [done|]. destruct (Ascii.eqb x y); [|done].
    simpl. intros H [_ Hs]%andb_prop. by apply (IH s).
Qed.

Lemma drop_while_chars (p cls : ascii -> bool) (s : string) :
  all_chars p s = true -> all_chars p (drop_while cls s) = true.
Proof.
  induction s as [|c s IH]; simpl; [done|].
  intros H. destruct (cls c); [|done].
  apply andb_prop in H as [_ H]. by apply IH.
Qed.

(** The head substitution removes characters only. *)
Lemma re_sub_head_chars (p : ascii -> bool) (alts : list string) (s : string) :
  all_chars p s = true -> all_chars p (re_sub_head alts s) = true.
Proof.
  intros Hs. induction alts as [|a alts IH]; simpl; [done|].
  destruct (strip_prefix a s) as [[|c rest]|] eqn:E; [done| |done].
  destruct (is_space c); [|done].
  pose proof (strip_prefix_chars p _ _ _ E Hs) as H. simpl in H.
  apply andb_prop in H as [_ H]. by apply drop_while_chars.
Qed.

(** Without white space in the string there is nothing to remove. *)
Lemma re_sub_head_no_space (alts : list string) (s : string) :
  all_chars (fun c => negb (is_space c)) s = true -> re_sub_head alts s = s.
Proof.
  intros Hs. induction alts as [|a alts IH]; simpl; [done|].
  destruct (strip_prefix a s) as [[|c rest]|] eqn:E; [done| |done].
  pose proof (strip_prefix_chars _ _ _ _ E Hs) as H. simpl in H.
  apply andb_prop in H as [H _]. by apply negb_true_iff in H as ->.
Qed.

Lemma handle_no_space (h : string) :
  all_chars is_handle_char h = true ->
  all_chars (fun c => negb (is_space c)) h = true.
Proof.
  apply all_chars_impl. intros c Hc. apply negb_true_iff.
  destruct (is_space c) eqn:E; [|done].
  by rewrite (space_not_handle _ E) in Hc.
Qed.

Lemma keep_none (cls : ascii -> bool) (s : string) :
  all_chars (fun c => negb (cls c)) s = true -> keep cls s = "".
Proof.
  induction s as [|c s IH]; simpl; [done|].
  intros [H1 H2]%andb_prop. apply negb_true_iff in H1 as ->. by apply IH.
Qed.

(** X3.  Name normalization is idempotent: a handle that a cleaner
    returns is returned unchanged when it is cleaned again, for the
    cleaner of [create_rappers_final.py] and for that of
    [enrich_dj_producers_social.py]. *)
Theorem X3_clean_idempotent (name : cell) (h : string) :
  (create_rappers_final.clean_artist_name_for_handle name = Some h ->
   create_rappers_final.clean_artist_name_for_handle (Some h) = Some h)
  /\ (enrich_dj_producers_social.clean_artist_name_for_handle name = Some h ->
      enrich_dj_producers_social.clean_artist_name_for_handle (Some h) = Some h).
Proof.
  split.
  - intros [Hne Hh]%clean_normalized.
    unfold create_rappers_final.clean_artist_name_for_handle.
    rewrite (lower_normal _ Hh), (re_sub_head_no_space _ _ (handle_no_space _ Hh)).
    rewrite (keep_all _ _ Hh). by destruct h.
  - intros H. assert (all_chars is_handle_char h = true) as Hh.
    { destruct name as [name|]; [|done].
      unfold enrich_dj_producers_social.clean_artist_name_for_handle in H.
      injection H as <-. apply all_chars_keep. }
    unfold enrich_dj_producers_social.clean_artist_name_for_handle.
    rewrite (lower_normal _ Hh), (re_sub_head_no_space _ _ (handle_no_space _ Hh)).
    by rewrite (keep_all _ _ Hh).
Qed.

(** A witness of X3. *)
Lemma X3_clean_idempotent_witness :
  create_rappers_final.clean_artist_name_for_handle (Some "weeknd")
  = Some "weeknd".
Proof.
  apply (proj1 (X3_clean_idempotent (Some "The Weeknd") "weeknd")).
  reflexivity.
Defined.

Lemma clean_nothing (s : string) :
  all_chars (fun c => negb (is_handle_char c)) (lower s) = true ->
  create_rappers_final.clean_artist_name_for_handle (Some s) = None
  /\ enrich_dj_producers_social.clean_artist_name_for_handle (Some s) = Some "".
Proof.
  intros H.
  unfold create_rappers_final.clean_artist_name_for_handle,
    enrich_dj_producers_social.clean_artist_name_for_handle.
  rewrite !(keep_none _ _ (re_sub_head_chars _ _ _ H)).
  by destruct (negb (truthy s)).
Qed.

(** X4.  The templaters never build a URL on an empty handle.  What
    they return is either nothing at all, or a handle that is not empty
    and made of [[a-z0-9_]] together with the URL of the platform on
    that handle; and they return nothing for a name without a character
    of [[a-z0-9_]] once in lower case.  This holds for the templaters of
    [create_rappers_final.py] and, although its cleaner may return the
    empty string, for those of [enrich_dj_producers_social.py]. *)
Theorem X4_no_empty_handle (name : cell) :
  (create_rappers_final.construct_instagram_url name = (None, None)
   \/ exists h, normalized h
        /\ create_rappers_final.construct_instagram_url name
           = (Some ("https://www.instagram.com/" +:+ h), Some h))
  /\ (create_rappers_final.construct_soundcloud_url name = (None, None)
      \/ exists h, normalized h
           /\ create_rappers_final.construct_soundcloud_url name
              = (Some ("https://soundcloud.com/" +:+ h), Some h))
  /\ (create_rappers_final.construct_tiktok_url name None = (None, None)
      \/ exists h, normalized h
           /\ create_rappers_final.construct_tiktok_url name None
              = (Some ("https://www.tiktok.com/@" +:+ h), Some h))
  /\ (enrich_dj_producers_social.construct_instagram_url name = (None, None)
      \/ exists h, normalized h
           /\ enrich_dj_producers_social.construct_instagram_url name
              = (Some ("https://www.instagram.com/" +:+ h), Some h))
  /\ (forall s, name = Some s ->
        all_chars (fun c => negb (is_handle_char c)) (lower s) = true ->
        create_rappers_final.construct_instagram_url name = (None, None)
        /\ create_rappers_final.construct_tiktok_url name None = (None, None)
        /\ create_rappers_final.construct_facebook_url name = None
        /\ enrich_dj_producers_social.construct_instagram_url name = (None, None)
        /\ enrich_dj_producers_social.construct_tiktok_url name None
           = (None, None)).
Proof.
  assert (forall c : cell,
             create_rappers_final.given c = None
             \/ exists h, h <> "" /\ c = Some h
                          /\ create_rappers_final.given c = Some h) as Hgiven.
  { intros [[|a h]|]; [by left| |by left]. right. by exists (String a h). }
  unfold create_rappers_final.construct_instagram_url,
    create_rappers_final.construct_soundcloud_url,
    create_rappers_final.construct_tiktok_url,
    create_rappers_final.construct_facebook_url,
    enrich_dj_producers_social.construct_instagram_url,
    enrich_dj_producers_social.construct_tiktok_url,
    enrich_dj_producers_social.given.
  cbn [create_rappers_final.given].
  split_and!.
  - destruct (Hgiven (create_rappers_final.clean_artist_name_for_handle name))
      as [->|(h & Hne & Hc & ->)]; [by left|right].
    exists h. split; [by eapply clean_normalized|done].
  - destruct (Hgiven (create_rappers_final.clean_artist_name_for_handle name))
      as [->|(h & Hne & Hc & ->)]; [by left|right].
    exists h. split; [by eapply clean_normalized|done].
  - destruct (Hgiven (create_rappers_final.clean_artist_name_for_handle name))
      as [->|(h & Hne & Hc & ->)]; [by left|right].
    exists h. split; [by eapply clean_normalized|done].
  - destruct (Hgiven (enrich_dj_producers_social.clean_artist_name_for_handle name))
      as [->|(h & Hne & Hc & ->)]; [by left|right].
    exists h. split; [by eapply clean_dj_normalized|done].
  - intros s -> Hs. destruct (clean_nothing s Hs) as [-> ->]. done.
Qed.

(** A witness of X4: a name of punctuation only. *)
Lemma X4_no_empty_handle_witness :
  create_rappers_final.construct_instagram_url (Some "!!!") = (None, None).
Proof.
  destruct (X4_no_empty_handle (Some "!!!")) as (_ & _ & _ & _ & H).
  apply (H "!!!"); reflexivity.
Defined.

End more_handles.

(** * Further properties of [enrich_remaining.py] *)

Section more_remaining.
Import PyStr Props enrich_remaining.

Lemma fold_alter_lookup (f : nat -> gmap string cell -> gmap string cell)
    (idxs : list nat) (rs : list (gmap string cell)) (i : nat) :
  NoDup idxs ->
  foldl (fun rs idx => alter (f idx) idx rs) rs idxs !! i
  = (if bool_decide (i ∈ idxs) then f i else id) <$> rs !! i.
Proof.
  intros Hnd. revert rs. induction Hnd as [|idx idxs Hnotin Hnd IH]; intros rs.
  - simpl. by destruct (rs !! i).
  - simpl. rewrite IH. destruct (decide (i = idx)) as [->|Hne].
    + rewrite list_lookup_alter_eq.
      rewrite (bool_decide_eq_false_2 _ Hnotin).
      rewrite bool_decide_eq_true_2 by set_solver.
      by destruct (rs !! idx).
    + rewrite list_lookup_alter_ne by done.
      destruct (bool_decide (i ∈ idxs)) eqn:E.
      * rewrite bool_decide_eq_true_2; [done|].
        apply bool_decide_eq_true in E. apply elem_of_cons. by right.
      * rewrite bool_decide_eq_false_2; [done|].
        apply bool_decide_eq_false in E. by intros [?|?]%elem_of_cons.
Qed.

Lemma run_from_lookup (start : nat) (youtube : bool) (net : nat -> replies)
    (rs : list (gmap string cell)) (i : nat) :
  run_from start youtube net rs !! i
  = (if bool_decide (start <= i)%nat then process_row youtube (net i) else id)
      <$> rs !! i.
Proof.
  unfold run_from.
  rewrite (fold_alter_lookup (fun idx => process_row youtube (net idx)))
    by apply NoDup_seq.
  destruct (rs !! i) as [r|] eqn:E; [|done]. simpl.
  apply lookup_lt_Some in E.
  destruct (bool_decide (start <= i)%nat) eqn:Hs.
  - apply bool_decide_eq_true in Hs.
    rewrite bool_decide_eq_true_2; [done|]. apply elem_of_seq. lia.
  - apply bool_decide_eq_false in Hs.
    rewrite bool_decide_eq_false_2; [done|]. rewrite elem_of_seq. lia.
Qed.

Lemma run_from_length (start : nat) (youtube : bool) (net : nat -> replies)
    (rs : list (gmap string cell)) :
  length (run_from start youtube net rs) = length rs.
Proof.
  unfold run_from. generalize (seq start (length rs - start)).
  intros idxs. revert rs. induction idxs as [|idx idxs IH]; intros rs; [done|].
  simpl. by rewrite IH, length_alter.
Qed.

(** X5.  A run keeps the header and the number of rows of the table,
    leaves every row before [START_INDEX] as it is, and gives every
    other row one turn of the loop, with the answers that the providers
    give for that row. *)
Theorem X5_rows_before_start (youtube : bool) (net : nat -> replies)
    (df df1 : dataframe) :
  run_pipeline youtube net df = Return df1 ->
  columns df1 = columns df
  /\ length (rows df1) = length (rows df)
  /\ (forall i, (i < START_INDEX)%nat -> rows df1 !! i = rows df !! i)
  /\ (forall i, (START_INDEX <= i)%nat ->
        rows df1 !! i = process_row youtube (net i) <$> rows df !! i).
Proof.
  intros (Hc & Hr & _)%run_pipeline_inv. rewrite Hr. split_and!.
  - done.
  - apply run_from_length.
  - intros i Hi. rewrite run_from_lookup.
    rewrite bool_decide_eq_false_2 by lia. by destruct (rows df !! i).
  - intros i Hi. rewrite run_from_lookup. by rewrite bool_decide_eq_true_2.
Qed.

(** A witness of X5: the table of the scenario after its first run. *)
Lemma X5_rows_before_start_witness :
  run_pipeline false Scenario.second_run Scenario.small_table
  = Return Scenario.small_table
  /\ (forall i, (i < START_INDEX)%nat ->
        rows Scenario.small_table !! i = rows Scenario.small_table !! i).
Proof.
  assert (run_pipeline false Scenario.second_run Scenario.small_table
          = Return Scenario.small_table) as H by evaluate.
  split; [exact H|].
  exact (proj1 (proj2 (proj2 (X5_rows_before_start _ _ _ _ H)))).
Defined.



(** What [enrich_row] may change in its copy of the row. *)
Lemma enrich_row_other (row updated_row : gmap string cell) (youtube : bool)
    (rp : replies) (sources : list string) (col : string) :
  enrich_row row youtube rp = Return (updated_row, sources) ->
  col ∉ ["spotify_id"; "youtube_url"; "youtube_channel_id";
         "soundcloud_url"; "soundcloud_handle"] ->
  updated_row !! col = row !! col.
Proof.
  intros H Hcol.
  assert (col <> "spotify_id" /\ col <> "youtube_url"
          /\ col <> "youtube_channel_id" /\ col <> "soundcloud_url"
          /\ col <> "soundcloud_handle") as (N1 & N2 & N3 & N4 & N5)
    by (split_and!; intros ->; apply Hcol; evaluate).
  unfold enrich_row in H.
  destruct (enrich_spotify rp (row, [])) as [[r1 s1]|] eqn:E1; [|done].
  destruct (enrich_youtube youtube rp (r1, s1)) as [[r2 s2]|] eqn:E2; [|done].
  injection H as H.
  assert (r1 !! col = row !! col) as H1.
  { unfold enrich_spotify in E1.
    destruct (spotify_reply rp) as [[a|]|]; [|by injection E1 as <- _|done].
    destruct (nonempty a); [|by injection E1 as <- _].
    destruct (_ || _); injection E1 as <- _; [|done].
    by rewrite lookup_insert_ne. }
  assert (r2 !! col = r1 !! col) as H2.
  { unfold enrich_youtube in E2.
    destruct (_ && _); [|by injection E2 as <- _].
    destruct (youtube_reply rp) as [[[url ch]|]|];
      [|by injection E2 as <- _|done].
    injection E2 as <- _. by rewrite !lookup_insert_ne. }
  rewrite <- H1, <- H2.
  change updated_row with (updated_row, sources).1. rewrite <- H.
  unfold enrich_soundcloud.
  destruct (isna (get r2 "soundcloud_url")); [|done].
  destruct (soundcloud_reply rp) as [[url handle]|]; [|done].
  cbv zeta. destruct (isna _); cbn [fst]; by rewrite !lookup_insert_ne.
Qed.

Lemma write_back_same (updated_row : gmap string cell) (cols : list string)
    (row : gmap string cell) (col : string) :
  get row col = get updated_row col ->
  foldl (write_back updated_row) row cols !! col = row !! col.
Proof.
  revert row. induction cols as [|col' cols IH]; intros row H; [done|].
  simpl. assert (write_back updated_row row col' !! col = row !! col) as Hw.
  { unfold write_back.
    destruct (get row col') as [old|] eqn:Hold; [done|].
    destruct (get updated_row col') as [new_val|] eqn:Hnew; [|done].
    destruct (decide (col' = col)) as [->|Hne]; [congruence|].
    by rewrite lookup_insert_ne. }
  rewrite IH; [done|]. unfold get in *. by rewrite Hw.
Qed.

(** X7.  What a turn of the loop never does: outside [spotify_id],
    [youtube_url], [youtube_channel_id], [soundcloud_url],
    [soundcloud_handle] and the two bookkeeping columns, the row is
    after the turn as it was before, whatever the providers answer.  In
    particular no Instagram, TikTok, Twitter, Facebook or website link
    is ever filled in by this pipeline. *)
Theorem X7_columns_never_written (youtube : bool) (rp : replies)
    (row : gmap string cell) (col : string) :
  col ∉ ["spotify_id"; "youtube_url"; "youtube_channel_id";
         "soundcloud_url"; "soundcloud_handle";
         "lookup_status"; "error_message"] ->
  process_row youtube rp row !! col = row !! col.
Proof.
  intros Hcol.
  assert (col <> "lookup_status" /\ col <> "error_message") as [N1 N2]
    by (split; intros ->; apply Hcol; evaluate).
  unfold process_row.
  destruct (enrich_row row youtube rp) as [[updated_row sources]|e] eqn:E.
  - rewrite tag_status_lookup by done.
    apply write_back_same. unfold get.
    rewrite (enrich_row_other _ _ _ _ _ col E); [done|].
    intros Hin. apply Hcol.
    repeat (apply elem_of_cons in Hin as [->|Hin]; [evaluate|]).
    by apply elem_of_nil in Hin.
  - by rewrite lookup_insert_ne.
Qed.

(** A witness of X7: the Instagram link of the pending row. *)
Lemma X7_columns_never_written_witness :
  process_row false (Scenario.second_run 0) Scenario.pending_row
    !! "instagram_url"
  = Scenario.pending_row !! "instagram_url".
Proof.
  apply (X7_columns_never_written false (Scenario.second_run 0)
           Scenario.pending_row "instagram_url").
  evaluate.
Defined.

Lemma write_back_self (row : gmap string cell) (cols : list string) :
  foldl (write_back row) row cols = row.
Proof.
  induction cols as [|col cols IH]; [done|]. simpl.
  assert (write_back row row col = row) as ->; [|done].
  unfold write_back. by destruct (get row col).
Qed.

(** X8.  A row that has a [spotify_id] (other than the empty string and
    nan), a [youtube_url] and a [soundcloud_url] comes out of a turn of
    the loop exactly as it went in, bookkeeping columns included,
    whatever Spotify, YouTube and SoundCloud answer, as long as the
    Spotify call does not raise. *)
Theorem X8_enriched_row_unchanged (youtube : bool) (rp : replies)
    (row : gmap string cell) (v : option (gmap string string)) :
  spotify_reply rp = Return v ->
  blank (get row "spotify_id") = false ->
  isna (get row "youtube_url") = false ->
  isna (get row "soundcloud_url") = false ->
  process_row youtube rp row = row.
Proof.
  intros Hsp Hid Hyt Hsc. unfold process_row, enrich_row.
  assert (enrich_spotify rp (row, []) = Return (row, [])) as ->.
  { unfold enrich_spotify. rewrite Hsp. destruct v as [a|]; [|done].
    destruct (nonempty a); [|done].
    assert (isna (get row "spotify_id") = false) as ->
      by (by destruct (get row "spotify_id")).
    by rewrite Hid. }
  assert (enrich_youtube youtube rp (row, []) = Return (row, [])) as ->.
  { unfold enrich_youtube. rewrite Hyt. by destruct youtube. }
  unfold enrich_soundcloud. rewrite Hsc.
  by rewrite write_back_self.
Qed.

(** A witness of X8. *)
Lemma X8_enriched_row_unchanged_witness :
  process_row true (Scenario.second_run 0) Scenario.enriched_row
  = Scenario.enriched_row.
Proof.
  apply (X8_enriched_row_unchanged true (Scenario.second_run 0)
           Scenario.enriched_row (Some Scenario.drake)).
  - reflexivity.
  - evaluate.
  - evaluate.
  - evaluate.
Defined.

End more_remaining.

(** * Further properties of [social_links_pipeline.py] *)

Section more_pipeline.
Import PyStr Props social_links_pipeline.

(** The test [key not in urls]. *)
Lemma has_false (key : string) (urls : gmap string string) (b : bool) :
  b && negb (has key urls) = true -> urls !! key = None.
Proof.
  intros [_ H]%andb_prop. apply negb_true_iff, bool_decide_eq_false in H.
  by apply eq_None_not_Some.
Qed.

Lemma add_relation_written (urls : gmap string string) (rel : relation) :
  written urls (add_relation urls rel).
Proof.
  unfold add_relation.
  destruct (_ && negb (has "instagram_url" _)) eqn:E1;
    [eapply written_pair; [|by eapply has_false|done]; evaluate|].
  destruct (_ && negb (has "tiktok_url" _)) eqn:E2;
    [eapply written_pair; [|by eapply has_false|done]; evaluate|].
  destruct (_ && negb (has "youtube_url" _)) eqn:E3;
    [eapply written_pair; [|by eapply has_false|done]; evaluate|].
  destruct (_ && negb (has "soundcloud_url" _)) eqn:E4;
    [eapply written_pair; [|by eapply has_false|done]; evaluate|].
  destruct (_ && negb (has "twitter_url" _)) eqn:E5;
    [eapply written_pair; [|by eapply has_false|done]; evaluate|].
  destruct (_ && negb (has "facebook_url" _)) eqn:E6;
    [eapply written_one; [|by eapply has_false|done]; evaluate|].
  destruct (_ && negb (has "website_url" _)) eqn:E7;
    [eapply written_one; [|by eapply has_false|done]; evaluate|].
  by apply written_none.
Qed.

Ltac pair_cases H :=
  repeat (apply elem_of_cons in H as [H|H];
          [injection H as -> ->|]);
  [..|by apply elem_of_nil in H].

Ltac lk :=
  repeat first [ rewrite lookup_insert_eq
               | rewrite lookup_insert_ne by discriminate ].

Ltac one_cases H :=
  repeat (apply elem_of_cons in H as [->|H]);
  [..|by apply elem_of_nil in H].

Lemma written_keeps (urls urls' : gmap string string) (k v : string) :
  paired urls -> written urls urls' ->
  urls !! k = Some v -> urls' !! k = Some v.
Proof.
  intros (P1 & P2 & P3 & P4 & P5) [->|u h x y Hin Hu ->|u x Hin Hu ->] Hk;
    [done| |].
  - assert (urls !! h = None) as Hh by (pair_cases Hin; auto).
    rewrite !lookup_insert_ne; [done|congruence..].
  - rewrite lookup_insert_ne; [done|congruence].
Qed.

Lemma written_paired (urls urls' : gmap string string) :
  paired urls -> written urls urls' -> paired urls'.
Proof.
  intros (P1 & P2 & P3 & P4 & P5) [->|u h x y Hin Hu ->|u x Hin Hu ->];
    [done| |].
  - pair_cases Hin; unfold paired; split_and!; lk;
      first [assumption | intros; discriminate].
  - one_cases Hin; unfold paired; split_and!; lk; assumption.
Qed.

Lemma written_keys (urls urls' : gmap string string) (k : string) :
  written urls urls' -> is_Some (urls' !! k) ->
  is_Some (urls !! k) \/ k ∈ link_keys.
Proof.
  intros [->|u h x y Hin Hu ->|u x Hin Hu ->] Hk; [by left| |].
  - destruct (decide (k = h)) as [->|Nh];
      [right; pair_cases Hin; evaluate|].
    destruct (decide (k = u)) as [->|Nu];
      [right; pair_cases Hin; evaluate|].
    left. by rewrite !lookup_insert_ne in Hk.
  - destruct (decide (k = u)) as [->|Nu];
      [right; one_cases Hin; evaluate|].
    left. by rewrite lookup_insert_ne in Hk.
Qed.

Lemma relations_paired (urls : gmap string string) (rels : list relation) :
  paired urls -> paired (foldl add_relation urls rels).
Proof.
  revert urls. induction rels as [|rel rels IH]; intros urls H; [done|].
  simpl. apply IH. eapply written_paired; [done|apply add_relation_written].
Qed.

Lemma relations_keep (urls : gmap string string) (rels : list relation)
    (k v : string) :
  paired urls -> urls !! k = Some v ->
  foldl add_relation urls rels !! k = Some v.
Proof.
  revert urls. induction rels as [|rel rels IH]; intros urls H Hk; [done|].
  simpl. apply IH.
  - eapply written_paired; [done|apply add_relation_written].
  - eapply written_keeps; [done|apply add_relation_written|done].
Qed.

Lemma relations_keys (urls : gmap string string) (rels : list relation)
    (k : string) :
  is_Some (foldl add_relation urls rels !! k) ->
  is_Some (urls !! k) \/ k ∈ link_keys.
Proof.
  revert urls. induction rels as [|rel rels IH]; intros urls H; [by left|].
  simpl in H. destruct (IH _ H) as [H'|H']; [|by right].
  eapply written_keys; [apply add_relation_written|done].
Qed.

Lemma country_paired (country : string) :
  paired ({["artist_country" := country]} : gmap string string).
Proof. unfold paired. by rewrite !lookup_singleton_ne. Qed.

(** X9.  In the loop over the relations of an artist the first relation
    of a platform wins: a key that is in the dictionary after some
    relations keeps its value whatever relations follow. *)
Theorem X9_first_relation_wins (country : string) (rels1 rels2 : list relation)
    (k v : string) :
  foldl add_relation {["artist_country" := country]} rels1 !! k = Some v ->
  foldl add_relation {["artist_country" := country]} (rels1 ++ rels2) !! k
  = Some v.
Proof.
  intros H. rewrite foldl_app. apply relations_keep; [|done].
  apply relations_paired, country_paired.
Qed.

(** A witness of X9: of two Instagram profiles the first is kept. *)
Lemma X9_first_relation_wins_witness :
  foldl add_relation {["artist_country" := "CA"]} Scenario.two_profiles
    !! "instagram_handle" = Some "champagnepapi".
Proof.
  apply (X9_first_relation_wins "CA" [hd (Build_relation "" None)
                                         Scenario.two_profiles]
           (tl Scenario.two_profiles) "instagram_handle" "champagnepapi").
  evaluate.
Defined.

Lemma links_keys (srv : server) (a : string) (st st' : state)
    (urls : gmap string string) (k : string) :
  get_all_social_links srv a st = (Some urls, st') ->
  is_Some (urls !! k) -> k = "artist_country" \/ k ∈ link_keys.
Proof.
  unfold get_all_social_links.
  destruct (resolve srv a st) as [id data st1|st1]; [|done].
  destruct (lookup_reply srv id) as [|rels]; [done|].
  destruct data as [[|first rest]|]; [done| |done].
  destruct (bool_decide _); [done|]. intros [= <- <-] Hk.
  destruct (relations_keys _ _ _ Hk) as [H|H]; [|by right].
  left. destruct (decide (k = "artist_country")) as [->|Hne]; [done|].
  rewrite lookup_singleton_ne in H by done. by destruct H.
Qed.

Lemma links_country (srv : server) (a : string) (st st' : state)
    (urls : gmap string string) :
  get_all_social_links srv a st = (Some urls, st') ->
  is_Some (urls !! "artist_country").
Proof.
  unfold get_all_social_links.
  destruct (resolve srv a st) as [id data st1|st1]; [|done].
  destruct (lookup_reply srv id) as [|rels]; [done|].
  destruct data as [[|first rest]|]; [done| |done].
  destruct (bool_decide _); [done|]. intros [= <- <-].
  eexists. apply relations_keep; [apply country_paired|].
  apply lookup_singleton_eq.
Qed.

Lemma process_artist_row (srv : server) (a : string) (st : state) :
  (process_artist srv a st).1 !! "Artist" = Some (Some a)
  /\ (process_artist srv a st).1 !! "Artist country" = None.
Proof.
  unfold process_artist.
  destruct (get_all_social_links srv a st) as [[l|] st'] eqn:E;
    [|cbn [fst]; by rewrite lookup_singleton_eq, lookup_singleton_ne].
  destruct (bool_decide (l = ∅)); cbn [fst];
    [by rewrite lookup_singleton_eq, lookup_singleton_ne|].
  assert (forall k, k <> "artist_country" -> k ∉ link_keys -> l !! k = None)
    as Hnone.
  { intros k N1 N2. apply eq_None_not_Some. intros Hk.
    by destruct (links_keys _ _ _ _ _ k E Hk). }
  rewrite !lookup_union_r.
  - by rewrite lookup_singleton_eq, lookup_singleton_ne.
  - rewrite lookup_fmap, Hnone; [done|done|evaluate].
  - rewrite lookup_fmap, Hnone; [done|done|evaluate].
Qed.

(** X10.  The country of an artist never reaches the output.  A lookup
    that succeeds returns the country under the key artist_country, but
    the table has the column Artist country, so that in the line that
    [process_artist] gives for the table the first cell is the name of
    the artist and the second, Artist country, is always empty. *)
Theorem X10_country_never_written (srv : server) (a : string) (st : state) :
  (exists cells,
      body (frame [(process_artist srv a st).1]) = [Some a :: None :: cells])
  /\ (forall urls st',
        get_all_social_links srv a st = (Some urls, st') ->
        is_Some (urls !! "artist_country")
        /\ urls !! "Artist country" = None).
Proof.
  split.
  - destruct (process_artist_row srv a st) as [H1 H2].
    unfold frame, social_cols. cbn [body fmap list_fmap].
    rewrite H1, H2. by eexists.
  - intros urls st' H. split; [by eapply links_country|].
    apply eq_None_not_Some. intros Hk.
    destruct (links_keys _ _ _ _ _ _ H Hk) as [?|Hin]; [done|].
    revert Hin. evaluate.
Qed.

(** A witness of X10: the lookup of Drake on a fresh start. *)
Lemma X10_country_never_written_witness :
  get_all_social_links Scenario.musicbrainz "Drake" Scenario.fresh
  = (Some Scenario.drake_urls, Scenario.after_drake)
  /\ Scenario.drake_urls !! "Artist country" = None.
Proof.
  assert (get_all_social_links Scenario.musicbrainz "Drake" Scenario.fresh
          = (Some Scenario.drake_urls, Scenario.after_drake)) as H by evaluate.
  split; [exact H|].
  exact (proj2 (proj2 (X10_country_never_written _ _ _) _ _ H)).
Defined.

Lemma unique_from_NoDup (seen : list string) (l : list cell) :
  NoDup (unique_from seen l)
  /\ forall a, a ∈ unique_from seen l -> a ∉ seen.
Proof.
  revert seen. induction l as [|[a|] l IH]; intros seen; simpl.
  - split; [constructor|]. by intros a ?%elem_of_nil.
  - destruct (bool_decide (a ∈ seen)) eqn:E; [apply IH|].
    apply bool_decide_eq_false in E.
    destruct (IH (a :: seen)) as [Hnd Hnot]. split.
    + constructor; [|done]. intros Hin. apply (Hnot a Hin). by left.
    + intros b [->|Hb]%elem_of_cons; [done|].
      intros Hs. apply (Hnot b Hb). by right.
  - apply IH.
Qed.

Lemma prepare_artists_NoDup (file_path : string) (st : state) (p : plan) :
  prepare file_path st = Return p -> NoDup (artists p).
Proof.
  unfold prepare.
  destruct (disk st !! file_path) as [[| |sheets]|]; [done..| |done].
  destruct (sheets !! "Sheet1") as [df|]; [|done].
  destruct (find_artist_col _) as [col|]; [|done].
  destruct (load_checkpoint _ _) as [[processed results]|]; [|done].
  intros [= <-]. simpl.
  apply NoDup_ListNoDup, List.NoDup_filter, NoDup_ListNoDup, unique_from_NoDup.
Qed.

(** The loop over the completed futures adds one row for each, in
    order, with the name of the artist in the column Artist. *)
Lemma loop_rows (srv : server) (ckpt : string) (js : list (nat * string))
    (acc : list (gmap string cell) * state) :
  exists new_rows,
    (foldl (collect srv ckpt) acc js).1 = acc.1 ++ new_rows
    /\ (fun r => r !! "Artist") <$> new_rows
       = (fun j => Some (Some j.2)) <$> js.
Proof.
  revert acc. induction js as [|[idx a] js IH]; intros [results st].
  - exists []. by rewrite app_nil_r.
  - cbn [foldl].
    assert (exists st1,
               collect srv ckpt (results, st) (idx, a)
               = (results ++ [(process_artist srv a st).1], st1)) as [st1 ->].
    { unfold collect. destruct (process_artist srv a st) as [row st0].
      destruct (_ =? _)%nat; by eexists. }
    destruct (IH (results ++ [(process_artist srv a st).1], st1))
      as (rows & -> & Hrows).
    exists ((process_artist srv a st).1 :: rows). cbn [fst]. split.
    + by rewrite <- app_assoc.
    + cbn [fmap list_fmap snd].
      rewrite (proj1 (process_artist_row srv a st)). f_equal. exact Hrows.
Qed.

Lemma jobs_artists (done : list string) :
  (fun j : nat * string => Some (Some j.2)) <$> jobs done
  = (fun a => Some (Some a)) <$> done.
Proof.
  unfold jobs.
  rewrite <- (snd_zip (seq 1 (length done)) done) at 3
    by (rewrite length_seq; lia).
  by rewrite <- list_fmap_compose.
Qed.

(** X11.  No record is dropped and none is doubled.  The artists that a
    turn submits to the pool are distinct; when the turn ends, the final
    table of the workbook holds the rows of the loaded checkpoint
    followed by one row for each submitted artist, in the order in which
    the pool completed them, with the name of the artist in the column
    Artist -- whether or not the lookup of the artist gave links. *)
Theorem X11_one_row_per_artist (srv : server)
    (sched : list string -> list string) (st st' : state)
    (file_path : string) (p : plan) :
  prepare file_path st = Return p ->
  process_file srv sched st file_path = Return st' ->
  file_path <> MB_CACHE_FILE -> checkpoint_of file_path <> file_path ->
  NoDup (artists p)
  /\ exists new_rows,
       social_links (disk st') file_path = Some (frame (results0 p ++ new_rows))
       /\ (fun r => r !! "Artist") <$> new_rows
          = (fun a => Some (Some a)) <$> sched (artists p).
Proof.
  intros Hp Hrun Hcache Hck. split; [by eapply prepare_artists_NoDup|].
  unfold process_file in Hrun. rewrite Hp in Hrun. injection Hrun as <-.
  destruct (prepare_inv _ _ _ Hp) as (Hname & sheets & Hwb).
  pose proof (loop_disk srv (CHECKPOINT_CSV p) (jobs (sched (artists p)))
                (results0 p, st) file_path Hcache) as Hloop.
  destruct (loop_rows srv (CHECKPOINT_CSV p) (jobs (sched (artists p)))
              (results0 p, st)) as (new_rows & Hres & Hart).
  destruct (foldl _ _ _) as [results st2]. cbn [fst snd] in *.
  rewrite Hname in Hloop.
  assert (file_path <> checkpoint_of file_path) as Hck' by congruence.
  specialize (Hloop Hck'). rewrite Hwb in Hloop.
  exists new_rows. split; [|by rewrite Hart, jobs_artists].
  unfold finish, social_links. rewrite Hname. cbn [disk].
  rewrite lookup_insert_ne, Hloop by done.
  rewrite lookup_insert_eq, lookup_insert_eq. by rewrite Hres.
Qed.

(** A witness of X11: the first turn of the scenario. *)
Lemma X11_one_row_per_artist_witness :
  prepare Scenario.rappers Scenario.at_start = Return Scenario.first_plan
  /\ NoDup (artists Scenario.first_plan).
Proof.
  assert (prepare Scenario.rappers Scenario.at_start
          = Return Scenario.first_plan) as Hp by evaluate.
  assert (process_file Scenario.musicbrainz Scenario.in_order
            Scenario.at_start Scenario.rappers
          = Return Scenario.after_first_turn) as Hrun by evaluate.
  split; [exact Hp|].
  refine (proj1 (X11_one_row_per_artist _ _ _ _ _ _ Hp Hrun _ _)); evaluate.
Defined.

(** X12.  A resumed turn does not submit again what the checkpoint
    holds: when the checkpoint file of the workbook is there and has an
    artist column, its rows open the results, and no artist of the plan
    has his name in that column. *)
Theorem X12_checkpoint_records_skipped (file_path : string) (st : state)
    (p : plan) (t : table) (c : string) :
  prepare file_path st = Return p ->
  disk st !! checkpoint_of file_path = Some (CsvFile t) ->
  List.find (fun c => contains "artist" (lower c)) (header t) = Some c ->
  results0 p = records t
  /\ forall a, a ∈ artists p -> a ∉ str <$> column t c.
Proof. apply resume_skips_checkpoint. Qed.

(** A witness of X12: the first workbook when the interrupted run of the
    scenario is started again. *)
Lemma X12_checkpoint_records_skipped_witness :
  prepare Scenario.rappers (startup Scenario.interrupted)
  = Return Scenario.resume_plan
  /\ results0 Scenario.resume_plan
     = records (Scenario.final_table
                  [Scenario.line "Drake"
                     (Some ("https://www.instagram.com/champagnepapi/",
                            "champagnepapi"))]).
Proof.
  assert (prepare Scenario.rappers (startup Scenario.interrupted)
          = Return Scenario.resume_plan) as Hp by evaluate.
  split; [exact Hp|].
  refine (proj1 (X12_checkpoint_records_skipped _ _ _ _ "Artist" Hp _ _));
    evaluate.
Defined.

End more_pipeline.

(** * Further properties of the chunk runners *)

Section more_chunks.
Import PyStr Props.

Lemma blank_row_dom :
  dom enrich_dj_parallel.blank_row
  = (list_to_set enrich_dj_parallel.COLUMNS : gset string).
Proof.
  unfold enrich_dj_parallel.blank_row. rewrite dom_list_to_map_L.
  by rewrite <- list_fmap_compose.
Qed.

Lemma insert_column_dom (m : gmap string cell) (k : string) (v : cell) :
  dom m = (list_to_set enrich_dj_parallel.COLUMNS : gset string) ->
  k ∈ enrich_dj_parallel.COLUMNS ->
  dom (<[k := v]> m) = (list_to_set enrich_dj_parallel.COLUMNS : gset string).
Proof.
  intros Hd Hk. rewrite dom_insert_lookup_L; [done|].
  apply elem_of_dom. rewrite Hd. by apply elem_of_list_to_set.
Qed.

Lemma enrich_artist_dom (name : string) (uuid : cell)
    (sp : outcome (option item)) (sc : outcome (option (string * string))) :
  dom (enrich_dj_parallel.enrich_artist name uuid sp sc)
  = (list_to_set enrich_dj_parallel.COLUMNS : gset string).
Proof.
  unfold enrich_dj_parallel.enrich_artist.
  generalize blank_row_dom. generalize enrich_dj_parallel.blank_row.
  intros b Hb.
  destruct sp as [[result|]|e];
    [destruct (enrich_remaining.nonempty result)|..];
    (destruct sc as [[[url handle]|]|e']; cbv beta iota zeta;
     repeat (apply insert_column_dom; [|evaluate]); exact Hb).
Qed.

Lemma process_row_enrich_artist (input : gmap string cell)
    (rp : dj_chunk_runner.replies) :
  exists name uuid,
    dj_chunk_runner.process_row input rp
    = enrich_dj_parallel.enrich_artist name uuid
        (Return (dj_chunk_runner.spotify_reply rp))
        (Return (dj_chunk_runner.soundcloud_reply rp)).
Proof.
  unfold dj_chunk_runner.process_row, enrich_dj_parallel.enrich_artist.
  eexists _, _.
  destruct rp as [[res|] [[url handle]|]];
    cbv beta iota zeta
      delta [dj_chunk_runner.spotify_reply dj_chunk_runner.soundcloud_reply];
    try destruct (enrich_remaining.nonempty res); reflexivity.
Qed.

(** X13.  Every row that the chunk runners build has exactly the
    seventeen columns of the schema, whatever the name, the identifier
    and the answers of the providers; and the row that the loop of
    [dj_chunk_runner.py] builds is the row that [enrich_artist] of
    [enrich_dj_parallel.py] builds from the same answers. *)
Theorem X13_row_schema :
  (forall name uuid sp sc col,
      is_Some (enrich_dj_parallel.enrich_artist name uuid sp sc !! col)
      <-> col ∈ enrich_dj_parallel.COLUMNS)
  /\ (forall input rp col,
        is_Some (dj_chunk_runner.process_row input rp !! col)
        <-> col ∈ dj_chunk_runner.COLUMNS)
  /\ (forall input rp,
        exists name uuid,
          dj_chunk_runner.process_row input rp
          = enrich_dj_parallel.enrich_artist name uuid
              (Return (dj_chunk_runner.spotify_reply rp))
              (Return (dj_chunk_runner.soundcloud_reply rp))).
Proof.
  split_and!.
  - intros name uuid sp sc col.
    rewrite <- elem_of_dom, enrich_artist_dom. apply elem_of_list_to_set.
  - intros input rp col.
    destruct (process_row_enrich_artist input rp) as (name & uuid & ->).
    rewrite <- elem_of_dom, enrich_artist_dom. apply elem_of_list_to_set.
  - apply process_row_enrich_artist.
Qed.

Lemma omap_seq (A B : Type) (df : list A) (f : nat -> A -> B) (n start : nat) :
  (start + n <= length df)%nat ->
  length (omap (fun i => f i <$> df !! i) (seq start n)) = n
  /\ forall j, (j < n)%nat ->
       omap (fun i => f i <$> df !! i) (seq start n) !! j
       = f (start + j)%nat <$> df !! (start + j)%nat.
Proof.
  revert start. induction n as [|n IH]; intros start Hle.
  - split; [done|]. intros j Hj. lia.
  - destruct (lookup_lt_is_Some_2 df start ltac:(lia)) as [x Hx].
    assert (omap (fun i => f i <$> df !! i) (seq start (S n))
            = f start x :: omap (fun i => f i <$> df !! i) (seq (S start) n))
      as ->.
    { change (seq start (S n)) with (start :: seq (S start) n).
      transitivity
        (match f start <$> df !! start with
         | Some y => y :: omap (fun i => f i <$> df !! i) (seq (S start) n)
         | None => omap (fun i => f i <$> df !! i) (seq (S start) n)
         end); [reflexivity|].
      by rewrite Hx. }
    destruct (IH (S start) ltac:(lia)) as [Hlen Hj]. split.
    + cbn [length]. by rewrite Hlen.
    + intros [|j] Hlt.
      * rewrite Nat.add_0_r, Hx. done.
      * rewrite lookup_cons_ne_0 by done. cbn [Nat.pred].
        rewrite (Hj j) by lia.
        by replace (S start + j)%nat with (start + S j)%nat by lia.
Qed.

(** X14.  [process start end] writes one row for each index of the
    range from [start] to the smaller of [end] and the length of the
    table, in order: row number [j] of the output is built from input
    row [start + j] and what the providers answer for it.  No index of
    the range is left out, and with [start] at or after that bound the
    output is empty. *)
Theorem X14_process_range (start end_ : nat) (df : list (gmap string cell))
    (net : nat -> dj_chunk_runner.replies) :
  length (dj_chunk_runner.process start end_ df net)
  = (Nat.min end_ (length df) - start)%nat
  /\ (forall j, (j < Nat.min end_ (length df) - start)%nat ->
        dj_chunk_runner.process start end_ df net !! j
        = (fun input => dj_chunk_runner.process_row input (net (start + j)%nat))
            <$> df !! (start + j)%nat).
Proof.
  unfold dj_chunk_runner.process.
  destruct (Nat.min end_ (length df) - start)%nat as [|n] eqn:E.
  - split; [done|]. intros j Hj. lia.
  - apply (omap_seq _ _ df
             (fun i input => dj_chunk_runner.process_row input (net i))).
    lia.
Qed.

(** A witness of X14: the one-record run of the scenario. *)
Lemma X14_process_range_witness :
  Scenario.drake_rows !! 0%nat
  = (fun input =>
       dj_chunk_runner.process_row input
         {| dj_chunk_runner.spotify_reply := Some Scenario.drake;
            dj_chunk_runner.soundcloud_reply := None |})
      <$> [ ({["artist_name" := Some "Drake"]} : gmap string cell) ] !! 0%nat.
Proof.
  refine (proj2 (X14_process_range 0 1 _ _) 0%nat _).
  vm_compute. lia.
Defined.

End more_chunks.

(** * The YouTube and SoundCloud searches *)

Section more_searches.
Import PyStr Props.











End more_searches.

(** * The MusicBrainz enrichment of [enrich_musicbrainz.py] *)

Section more_musicbrainz.
Import PyStr Props enrich_musicbrainz.

Lemma mb_get_insert_eq (r : gmap string cell) (k : string) (v : cell) :
  get (<[k := v]> r) k = v.
Proof. unfold get. by rewrite lookup_insert_eq. Qed.

Lemma mb_get_insert_ne (r : gmap string cell) (k c : string) (v : cell) :
  k <> c -> get (<[k := v]> r) c = get r c.
Proof. intros. unfold get. by rewrite lookup_insert_ne. Qed.

Lemma has_social_intro (r : gmap string cell) (col : string) :
  col ∈ social_cols -> isna (get r col) = false -> has_social r = true.
Proof.
  intros Hin Hna. apply existsb_exists. exists col.
  split; [by apply list_elem_of_In|by rewrite Hna].
Qed.

Lemma has_social_insert (r : gmap string cell) (k : string) (v : cell) :
  k ∉ social_cols -> has_social r = true -> has_social (<[k := v]> r) = true.
Proof.
  intros Hk (col & Hin & Hna)%existsb_exists.
  apply list_elem_of_In in Hin.
  apply (has_social_intro _ col Hin).
  rewrite mb_get_insert_ne; [by apply negb_true_iff|]. by intros ->.
Qed.

Lemma fill_pair_ok (urls : gmap string string) (key url_col handle_col : string)
    (row : gmap string cell) (acc : gmap string cell * bool) :
  url_col ∈ social_cols -> handle_col ∉ social_cols ->
  step_ok row acc -> step_ok row (fill_pair urls key url_col handle_col acc).
Proof.
  intros Hu Hh Hok. unfold fill_pair.
  destruct (found urls key) as [u|]; [|done].
  destruct (isna (get acc.1 url_col)); [|done].
  right. split; [done|]. cbn [fst].
  apply has_social_insert; [done|].
  apply (has_social_intro _ url_col Hu). by rewrite mb_get_insert_eq.
Qed.

Lemma fill_one_ok (urls : gmap string string) (key url_col : string)
    (row : gmap string cell) (acc : gmap string cell * bool) :
  url_col ∈ social_cols ->
  step_ok row acc -> step_ok row (fill_one urls key url_col acc).
Proof.
  intros Hu Hok. unfold fill_one.
  destruct (found urls key) as [u|]; [|done].
  destruct (isna (get acc.1 url_col)); [|done].
  right. split; [done|]. cbn [fst].
  apply (has_social_intro _ url_col Hu). by rewrite mb_get_insert_eq.
Qed.

Lemma update_row_cases (urls : gmap string string) (row : gmap string cell) :
  update_row urls row = row \/ has_social (update_row urls row) = true.
Proof.
  unfold update_row.
  set (a1 := fill_pair urls "instagram" "instagram_url" "instagram_handle"
               (row, false)).
  set (a2 := fill_pair urls "twitter" "twitter_url" "twitter_handle" a1).
  set (a3 := fill_one urls "facebook" "facebook_url" a2).
  set (a4 := fill_pair urls "tiktok" "tiktok_url" "tiktok_handle" a3).
  set (a5 := fill_one urls "website" "website_url" a4).
  assert (step_ok row a5) as [->|[Hflag Hsoc]].
  { apply fill_one_ok; [evaluate|].
    apply fill_pair_ok; [evaluate..|].
    apply fill_one_ok; [evaluate|].
    apply fill_pair_ok; [evaluate..|].
    apply fill_pair_ok; [evaluate..|]. by left. }
  - by left.
  - right. rewrite Hflag. cbv zeta.
    destruct (negb _); [|done].
    apply has_social_insert; [evaluate|done].
Qed.

Lemma fill_pair_kept (urls : gmap string string) (key url_col handle_col : string)
    (row : gmap string cell) (acc : gmap string cell * bool) :
  handle_col ∈ ["instagram_handle"; "twitter_handle"; "tiktok_handle";
                "lookup_status"] ->
  kept row acc -> kept row (fill_pair urls key url_col handle_col acc).
Proof.
  intros Hh Hk col v Hcol Hv. specialize (Hk col v Hcol Hv).
  unfold fill_pair. destruct (found urls key) as [u|]; [|done].
  destruct (isna (get acc.1 url_col)) eqn:Hna; [|done]. cbn [fst].
  rewrite !lookup_insert_ne; [done| |].
  - intros ->. unfold get in Hna. by rewrite Hk in Hna.
  - by intros ->.
Qed.

Lemma fill_one_kept (urls : gmap string string) (key url_col : string)
    (row : gmap string cell) (acc : gmap string cell * bool) :
  kept row acc -> kept row (fill_one urls key url_col acc).
Proof.
  intros Hk col v Hcol Hv. specialize (Hk col v Hcol Hv).
  unfold fill_one. destruct (found urls key) as [u|]; [|done].
  destruct (isna (get acc.1 url_col)) eqn:Hna; [|done]. cbn [fst].
  rewrite lookup_insert_ne; [done|].
  intros ->. unfold get in Hna. by rewrite Hk in Hna.
Qed.

Lemma update_row_kept (urls : gmap string string) (row : gmap string cell)
    (col v : string) :
  col ∉ ["instagram_handle"; "twitter_handle"; "tiktok_handle";
         "lookup_status"] ->
  row !! col = Some (Some v) -> update_row urls row !! col = Some (Some v).
Proof.
  intros Hcol Hv. unfold update_row.
  set (a1 := fill_pair urls "instagram" "instagram_url" "instagram_handle"
               (row, false)).
  set (a2 := fill_pair urls "twitter" "twitter_url" "twitter_handle" a1).
  set (a3 := fill_one urls "facebook" "facebook_url" a2).
  set (a4 := fill_pair urls "tiktok" "tiktok_url" "tiktok_handle" a3).
  set (a5 := fill_one urls "website" "website_url" a4).
  assert (kept row a5) as Hk.
  { apply fill_one_kept.
    apply fill_pair_kept; [evaluate|].
    apply fill_one_kept.
    apply fill_pair_kept; [evaluate|].
    apply fill_pair_kept; [evaluate|]. by intros c w _ H. }
  specialize (Hk col v Hcol Hv).
  destruct a5.2; [|done]. cbv zeta.
  destruct (negb _); [|done].
  rewrite lookup_insert_ne; [done|].
  intros <-. apply Hcol. evaluate.
Qed.

(** X17.  The loop of [run] on one row: a row that has one of the five
    social URLs is left as it is; the turn is idempotent, that is, a
    second turn with the same answer of MusicBrainz changes nothing; and
    every value of the row stays, except in the three handle columns
    and [lookup_status], which a turn may write over. *)
Theorem X17_musicbrainz_row (urls : option (gmap string string))
    (row : gmap string cell) :
  (has_social row = true -> run_row urls row = row)
  /\ run_row urls (run_row urls row) = run_row urls row
  /\ (forall col v,
        col ∉ ["instagram_handle"; "twitter_handle"; "tiktok_handle";
               "lookup_status"] ->
        row !! col = Some (Some v) ->
        run_row urls row !! col = Some (Some v)).
Proof.
  split_and!.
  - intros H. unfold run_row. by rewrite H.
  - unfold run_row at 2.
    destruct (has_social row) eqn:Hs; [unfold run_row; by rewrite Hs|].
    destruct urls as [urls|]; [|unfold run_row; by rewrite Hs].
    destruct (bool_decide (urls = ∅)) eqn:He;
      [unfold run_row; by rewrite Hs, He|].
    destruct (update_row_cases urls row) as [->|H].
    + unfold run_row. by rewrite Hs, He.
    + unfold run_row. by rewrite H, Hs, He.
  - intros col v Hcol Hv. unfold run_row.
    destruct (has_social row); [done|].
    destruct urls as [urls|]; [|done].
    destruct (bool_decide (urls = ∅)); [done|].
    by apply update_row_kept.
Qed.

(** A witness of X17: the name of the bare row of the scenario. *)
Lemma X17_musicbrainz_row_witness :
  run_row (Some Scenario.mb_urls) Scenario.bare_row !! "artist_name"
  = Some (Some "Drake").
Proof.
  apply (proj2 (proj2 (X17_musicbrainz_row (Some Scenario.mb_urls)
                         Scenario.bare_row))); evaluate.
Defined.

End more_musicbrainz.

(** * The relations of [get_artist_urls] *)

Section more_urls.
Import PyStr Props enrich_musicbrainz.

Lemma insert_value (urls : gmap string string) (key x k v : string) :
  <[key := x]> urls !! k = Some v ->
  urls !! k = Some v \/ (k = key /\ v = x).
Proof.
  destruct (decide (key = k)) as [->|Hne].
  - rewrite lookup_insert_eq. intros [= <-]. by right.
  - rewrite lookup_insert_ne by done. by left.
Qed.

Lemma add_url_values (urls : gmap string string) (rel : relation) (k v : string) :
  add_url urls rel !! k = Some v ->
  urls !! k = Some v
  \/ (v = resource rel /\ rel_type rel <> Some "url"
      /\ k ∈ ["instagram"; "twitter"; "facebook"; "tiktok"; "website"]).
Proof.
  unfold add_url. destruct (bool_decide _) eqn:Et; [by left|].
  apply bool_decide_eq_false in Et.
  destruct (contains "instagram" _);
    [intros [H|[-> ->]]%insert_value;
       [by left|right; split_and!; [done..|evaluate]]|].
  destruct (_ || _);
    [intros [H|[-> ->]]%insert_value;
       [by left|right; split_and!; [done..|evaluate]]|].
  destruct (contains "facebook.com" _);
    [intros [H|[-> ->]]%insert_value;
       [by left|right; split_and!; [done..|evaluate]]|].
  destruct (contains "tiktok.com" _);
    [intros [H|[-> ->]]%insert_value;
       [by left|right; split_and!; [done..|evaluate]]|].
  destruct (String.eqb _ _);
    [intros [H|[-> ->]]%insert_value;
       [by left|right; split_and!; [done..|evaluate]]|].
  by left.
Qed.

(** X18.  [get_artist_urls] never invents a link: every value of the
    dictionary is the URL of one of the relations listed, of a type
    other than url, under one of the keys instagram, twitter, facebook,
    tiktok and website; and for a platform with several relations the
    last one listed is the one kept. *)
Theorem X18_artist_urls (rels : list relation) :
  (forall k v,
      get_artist_urls (Some rels) !! k = Some v ->
      k ∈ ["instagram"; "twitter"; "facebook"; "tiktok"; "website"]
      /\ exists rel, rel ∈ rels /\ resource rel = v
                     /\ rel_type rel <> Some "url")
  /\ (forall rel,
        rel_type rel <> Some "url" ->
        contains "instagram" (lower (resource rel)) = true ->
        get_artist_urls (Some (rels ++ [rel])) !! "instagram"
        = Some (resource rel)).
Proof.
  split.
  - unfold get_artist_urls. intros k v.
    assert (forall urls : gmap string string,
               foldl add_url urls rels !! k = Some v ->
               urls !! k = Some v
               \/ (k ∈ ["instagram"; "twitter"; "facebook"; "tiktok"; "website"]
                   /\ exists rel, rel ∈ rels /\ resource rel = v
                                  /\ rel_type rel <> Some "url")) as H.
    { induction rels as [|rel rels IH]; intros urls Hk; [by left|].
      simpl in Hk. destruct (IH _ Hk) as [H|(Hin & r & Hr & H)].
      - destruct (add_url_values _ _ _ _ H) as [?|(-> & Ht & Hin)]; [by left|].
        right. split; [done|]. exists rel. split; [by left|done].
      - right. split; [done|]. exists r. split; [by right|done]. }
    intros Hk. destruct (H ∅ Hk) as [Hempty|?]; [|done].
    by rewrite lookup_empty in Hempty.
  - intros rel Ht Hin. unfold get_artist_urls. rewrite foldl_app. simpl.
    unfold add_url. rewrite bool_decide_eq_false_2 by done.
    rewrite Hin. by rewrite lookup_insert_eq.
Qed.

(** A witness of X18. *)
Lemma X18_artist_urls_witness :
  get_artist_urls
    (Some ([] ++ [ {| rel_type := Some "social network";
                      resource := "https://www.instagram.com/champagnepapi" |} ]))
    !! "instagram"
  = Some "https://www.instagram.com/champagnepapi".
Proof.
  apply (proj2 (X18_artist_urls [])
           {| rel_type := Some "social network";
              resource := "https://www.instagram.com/champagnepapi" |}).
  - discriminate.
  - reflexivity.
Defined.

End more_urls.

(** * Filling the rows of [fill_all_social_links.py] *)

Section more_fill.
Import PyStr Props fill_all_social_links.

(** A platform step writes where the row has nothing, and only in the
    two columns of the platform. *)
Lemma fill_platform_kept (platform url_col handle_col : string)
    (from_handle : string -> string) (from_artist : string)
    (row df : gmap string cell) (col : string) :
  isna (get row col) = false ->
  fill_platform platform url_col handle_col from_handle from_artist row df !! col
  = df !! col.
Proof.
  intros Hcol. unfold fill_platform.
  assert (get row url_col = None -> url_col <> col) as Hu
    by (intros H <-; by rewrite H in Hcol).
  assert (get row handle_col = None -> handle_col <> col) as Hh
    by (intros H <-; by rewrite H in Hcol).
  destruct (get row url_col) as [u|], (get row handle_col) as [h|];
    cbn [isna negb andb]; try done.
  - destruct (extract_handle_from_url (Some u) platform) as [x|]; [|done].
    destruct (truthy x); [|done]. rewrite lookup_insert_ne; [done|auto].
  - rewrite lookup_insert_ne; [done|auto].
  - rewrite !lookup_insert_ne; [done|auto..].
Qed.

Lemma fill_platform_other (platform url_col handle_col : string)
    (from_handle : string -> string) (from_artist : string)
    (row df : gmap string cell) (col : string) :
  col <> url_col -> col <> handle_col ->
  fill_platform platform url_col handle_col from_handle from_artist row df !! col
  = df !! col.
Proof.
  intros Hu Hh. unfold fill_platform.
  destruct (get row url_col) as [u|], (get row handle_col) as [h|];
    cbn [isna negb andb]; try done.
  - destruct (extract_handle_from_url (Some u) platform) as [x|]; [|done].
    destruct (truthy x); [|done]. by rewrite lookup_insert_ne.
  - by rewrite lookup_insert_ne.
  - by rewrite !lookup_insert_ne.
Qed.

Lemma fill_platform_url (platform url_col handle_col : string)
    (from_handle : string -> string) (from_artist : string)
    (row df : gmap string cell) :
  url_col <> handle_col ->
  get df url_col = get row url_col ->
  isna (get (fill_platform platform url_col handle_col from_handle
               from_artist row df) url_col) = false.
Proof.
  intros Hne Hdf. unfold fill_platform, get in *.
  destruct (default None (row !! url_col)) as [u|] eqn:Eu,
           (default None (row !! handle_col)) as [h|] eqn:Eh;
    cbn [isna negb andb].
  - by rewrite Hdf.
  - destruct (extract_handle_from_url (Some u) platform) as [x|];
      [destruct (truthy x)|]; rewrite ?lookup_insert_ne by done;
      by rewrite Hdf.
  - by rewrite lookup_insert_eq.
  - rewrite lookup_insert_ne by done. by rewrite lookup_insert_eq.
Qed.

(** X19.  After the loop of [main] has passed a row, the row has an
    Instagram URL and a Twitter URL, whatever it had before and whatever
    the name of the artist is; and every value that the row had is
    still there: the loop fills, it does not replace. *)
Theorem X19_fill_row (artist : string) (row : gmap string cell) :
  isna (get (fill_row artist row) "instagram_url") = false
  /\ isna (get (fill_row artist row) "twitter_url") = false
  /\ (forall col v,
        row !! col = Some (Some v) ->
        fill_row artist row !! col = Some (Some v)).
Proof.
  unfold fill_row. split_and!.
  - unfold get at 1. rewrite fill_platform_other by done.
    apply (fill_platform_url "instagram" "instagram_url" "instagram_handle");
      done.
  - apply fill_platform_url; [done|].
    unfold get at 1. by rewrite fill_platform_other.
  - intros col v Hv.
    assert (isna (get row col) = false) as Hna
      by (unfold get; by rewrite Hv).
    by rewrite !fill_platform_kept.
Qed.

(** A witness of X19: a row that has a Twitter handle only. *)
Lemma X19_fill_row_witness :
  fill_row "Drake" {["twitter_handle" := Some "Drake"]} !! "twitter_handle"
  = Some (Some "Drake").
Proof.
  apply (proj2 (proj2 (X19_fill_row "Drake"
                         {["twitter_handle" := Some "Drake"]}))).
  evaluate.
Defined.

End more_fill.

(** * The channel id of a guessed YouTube URL *)

Section more_youtube.
Import PyStr Props.

Lemma re_search_group_none (a : ascii) (lit : string) (cls : ascii -> bool)
    (s : string) :
  all_chars (fun c => negb (Ascii.eqb c a)) s = true ->
  re_search_group (String a lit) cls s = None.
Proof.
  induction s as [|c s IH]; [done|]. simpl.
  intros [Hc Hs]%andb_prop. apply negb_true_iff in Hc.
  rewrite Ascii.eqb_sym, Hc. by apply IH.
Qed.

Lemma handle_channel_chars (h : string) :
  all_chars is_handle_char h = true -> all_chars is_channel_char h = true.
Proof.
  apply all_chars_impl. intros c Hc.
  by destruct c as [[] [] [] [] [] [] [] []].
Qed.

Lemma strip_url (h : string) :
  normalized h ->
  strip ("https://www.youtube.com/@" +:+ h) = "https://www.youtube.com/@" +:+ h.
Proof.
  intros [Hne Hh]. unfold strip.
  assert (drop_while is_space ("https://www.youtube.com/@" +:+ h)
          = "https://www.youtube.com/@" +:+ h) as -> by done.
  apply rstrip_class_append; [done|].
  apply rstrip_class_all. by apply handle_no_space.
Qed.

(** X20.  The channel id of a guessed YouTube URL: for every handle [h]
    that the name normalization gives, [extract_youtube_channel_id] of
    the URL that [construct_youtube_url] builds is [h] with its at sign
    in front. *)
Theorem X20_youtube_channel_id (name other : cell) (h : string) :
  create_rappers_final.clean_artist_name_for_handle name = Some h ->
  create_rappers_final.extract_youtube_channel_id
    (create_rappers_final.construct_youtube_url name None)
  = Some ("@" +:+ h)
  /\ create_rappers_final.extract_youtube_channel_id
       (create_rappers_final.construct_youtube_url other (Some h))
     = Some ("@" +:+ h).
Proof.
  intros Hclean. pose proof (clean_normalized _ _ Hclean) as Hn.
  pose proof (given_normalized h (proj1 Hn)) as Hg.
  unfold create_rappers_final.construct_youtube_url.
  rewrite Hclean, Hg. cbn [create_rappers_final.given].
  assert (create_rappers_final.extract_youtube_channel_id
            (Some ("https://www.youtube.com/@" +:+ h)) = Some ("@" +:+ h));
    [|done].
  unfold create_rappers_final.extract_youtube_channel_id.
  assert (truthy ("https://www.youtube.com/@" +:+ h) = true) as -> by done.
  cbn [negb]. rewrite (strip_url _ Hn).
  destruct Hn as [Hne Hh].
  assert (re_search_group "/channel/" is_path_char
            ("https://www.youtube.com/@" +:+ h) = None) as ->.
  { rewrite !append_cons, append_nil_l. simpl.
    apply re_search_group_none. by apply (normalized_no "/"); [evaluate|]. }
  rewrite !append_cons, append_nil_l. simpl.
  rewrite (take_while_all _ _ (handle_channel_chars _ Hh)).
  by destruct h.
Qed.

(** A witness of X20. *)
Lemma X20_youtube_channel_id_witness :
  create_rappers_final.extract_youtube_channel_id
    (create_rappers_final.construct_youtube_url (Some "Lil Wayne") None)
  = Some "@wayne".
Proof.
  apply (X20_youtube_channel_id (Some "Lil Wayne") None "wayne").
  reflexivity.
Defined.

End more_youtube.

(** * What a turn of [social_links_pipeline.py] submits and writes *)

Section more_turns.
Import PyStr Props social_links_pipeline.

Lemma unique_from_elem (seen : list string) (l : list cell) (a : string) :
  a ∈ unique_from seen l <-> Some a ∈ l /\ a ∉ seen.
Proof.
  revert seen. induction l as [|[b|] l IH]; intros seen; simpl.
  - split; [by intros ?%elem_of_nil|by intros [?%elem_of_nil _]].
  - destruct (bool_decide (b ∈ seen)) eqn:E.
    + apply bool_decide_eq_true in E. rewrite IH. split.
      * intros [H1 H2]. split; [by right|done].
      * intros [[[= ->]|H1]%elem_of_cons H2]; [done|by split].
    + apply bool_decide_eq_false in E. rewrite elem_of_cons, IH. split.
      * intros [->|[H1 H2]]; [split; [by left|done]|].
        split; [by right|]. intros H. apply H2. by right.
      * intros [[[= ->]|H1]%elem_of_cons H2]; [by left|].
        destruct (decide (a = b)) as [->|Hne]; [by left|right].
        split; [done|]. by intros [?|?]%elem_of_cons.
  - rewrite IH. split.
    + intros [H1 H2]. split; [by right|done].
    + intros [[?|H1]%elem_of_cons H2]; [done|by split].
Qed.

(** X21.  The artists that a turn submits are exactly the names of the
    artist column of Sheet1 that are not empty cells and are not in the
    processed set of the checkpoint: nobody else is looked up, and
    nobody of these is left out. *)
Theorem X21_submitted_artists (file_path : string) (st : state) (p : plan)
    (sheets : gmap string table) (df_artists : table) (artist_col : string)
    (processed : gset string) (results : list (gmap string cell)) :
  prepare file_path st = Return p ->
  disk st !! file_path = Some (Workbook sheets) ->
  sheets !! "Sheet1" = Some df_artists ->
  find_artist_col (header df_artists) = Some artist_col ->
  load_checkpoint (disk st) (checkpoint_of file_path)
  = Return (processed, results) ->
  forall a, a ∈ artists p
            <-> Some a ∈ column df_artists artist_col /\ a ∉ processed.
Proof.
  unfold prepare. fold (checkpoint_of file_path).
  intros Hp Hwb Hsheet Hcol Hload. rewrite Hwb, Hsheet, Hcol, Hload in Hp.
  injection Hp as <-. cbn [artists]. intros a.
  rewrite list_elem_of_In, filter_In, <- list_elem_of_In.
  rewrite unique_from_elem, negb_true_iff, bool_decide_eq_false.
  split; [intros [[H _] H']; by split|].
  intros [H H']. split; [split; [done|]|done]. by intros ?%elem_of_nil.
Qed.

(** A witness of X21: the first turn of the scenario. *)
Lemma X21_submitted_artists_witness :
  "Drake" ∈ artists Scenario.first_plan
  <-> Some "Drake" ∈ column {| header := ["Artist"]; body := [[Some "Drake"]] |}
                        "Artist"
      /\ "Drake" ∉ (∅ : gset string).
Proof.
  refine (X21_submitted_artists Scenario.rappers Scenario.at_start
            Scenario.first_plan
            {[ "Sheet1" := {| header := ["Artist"]; body := [[Some "Drake"]] |} ]}
            {| header := ["Artist"]; body := [[Some "Drake"]] |}
            "Artist" ∅ [] _ _ _ _ _ "Drake"); evaluate.
Defined.

(** X22.  What a turn writes.  A turn that ends has written the cache
    file, the checkpoint file of its workbook and the workbook, and no
    other file; and in the workbook it has written the sheet "Social
    Links" only: the other sheets are as they were. *)
Theorem X22_turn_writes (srv : server) (sched : list string -> list string)
    (st st' : state) (file_path : string) (sheets : gmap string table) :
  process_file srv sched st file_path = Return st' ->
  file_path <> MB_CACHE_FILE -> checkpoint_of file_path <> file_path ->
  disk st !! file_path = Some (Workbook sheets) ->
  (forall k, k <> MB_CACHE_FILE -> k <> checkpoint_of file_path ->
             k <> file_path -> disk st' !! k = disk st !! k)
  /\ exists sheets',
       disk st' !! file_path = Some (Workbook sheets')
       /\ forall name, name <> "Social Links" ->
                       sheets' !! name = sheets !! name.
Proof.
  intros Hrun Hcache Hck Hwb. split.
  - intros k Hk1 Hk2 Hk3.
    exact (process_file_frame _ _ _ _ _ _ Hrun Hk1 Hk2 Hk3).
  - unfold process_file in Hrun.
    destruct (prepare file_path st) as [p|] eqn:Hp; [|done].
    injection Hrun as <-.
    destruct (prepare_inv _ _ _ Hp) as (Hname & _).
    pose proof (loop_disk srv (CHECKPOINT_CSV p) (jobs (sched (artists p)))
                  (results0 p, st) file_path Hcache) as Hloop.
    destruct (foldl _ _ _) as [results st2]. cbn [fst snd] in *.
    rewrite Hname in Hloop.
    assert (file_path <> checkpoint_of file_path) as Hck' by congruence.
    specialize (Hloop Hck'). rewrite Hwb in Hloop.
    unfold finish. rewrite Hname. cbn [disk].
    rewrite lookup_insert_ne, Hloop by done.
    rewrite lookup_insert_eq. eexists. split; [done|].
    intros name Hn. by rewrite lookup_insert_ne.
Qed.

(** A witness of X22: the first turn of the scenario. *)
Lemma X22_turn_writes_witness :
  process_file Scenario.musicbrainz Scenario.in_order Scenario.at_start
    Scenario.rappers = Return Scenario.after_first_turn
  /\ disk Scenario.after_first_turn !! Scenario.singers
     = disk Scenario.at_start !! Scenario.singers.
Proof.
  assert (process_file Scenario.musicbrainz Scenario.in_order
            Scenario.at_start Scenario.rappers
          = Return Scenario.after_first_turn) as Hrun by evaluate.
  split; [exact Hrun|].
  refine (proj1 (X22_turn_writes _ _ _ _ _ (<["Sheet1" :=
            {| header := ["Artist"]; body := [[Some "Drake"]] |}]> ∅)
            Hrun _ _ _) Scenario.singers _ _ _); evaluate.
Defined.

End more_turns.

(** * Two more witnesses *)

Section more_witnesses.
Import PyStr Props.

(** A witness of X1: the empty URL. *)
Lemma X1_extract_handle_none_witness :
  enrich_musicbrainz.extract_handle (Some "") "instagram" = None.
Proof.
  apply (proj2 (X1_extract_handle_none (Some "") "instagram")).
  right. reflexivity.
Defined.

(** A witness of X13: a row without any answer has its [spotify_id]
    column. *)
Lemma X13_row_schema_witness :
  is_Some (enrich_dj_parallel.enrich_artist "Nobody" None
             (Return None) (Return None) !! "spotify_id").
Proof.
  destruct X13_row_schema as (H & _).
  apply (proj2 (H "Nobody" None (Return None) (Return None) "spotify_id")).
  evaluate.
Defined.

End more_witnesses.
